(** * AuthHashCalc: Source/hash.cpp

    A shallow embedding of the hash support routines of AuthHashCalc
    (HashpAddPad, HashpGetSizeOfHeaders, HashpGetExcludeRange,
    CalculateFirstPageHash, CalculateAuthenticodeHash) and the properties
    of the Authenticode digest orchestration established on it.

    Conventions.
    - A ULONG/DWORD is a [Z] in [0, 2^32); every C operation that can leave
      that range is followed by [wrap32].
    - An NTSTATUS is a signed 32-bit value, [NT_SUCCESS] is [0 <= status].
    - The CNG hash object is opaque in the source.  It is modelled by the
      chronological list of the calls made on it ([Events]), by the digest
      function of the chosen algorithm ([AlgHandle]) and by a [Script] of
      the statuses the provider will answer to the next calls (an empty
      script answers STATUS_SUCCESS), so that every failure pattern of the
      provider can be stated.
    - The mapped file is a list of bytes.  A read that leaves the view
      raises an access violation, which the structured exception handlers
      of the two hashers turn into IMAGE_VERIFY_EXCEPTION_IN_PROCESS.
    - HashLoadFile, CreateHashContext and DestroyHashContext only call
      the loader, the heap and the CNG provider; they are not modelled. *)

From Stdlib Require Import ZArith List Bool Lia.
From Stdlib.Strings Require Import Byte.
From Equations Require Import Equations.
Import ListNotations.
Local Open Scope Z_scope.

(* ------------------------------------------------------------------ *)
(** ** Machine integers and statuses *)

Definition wrap32 (x : Z) : Z := x mod 2 ^ 32.

Definition u32 (x : Z) : Prop := 0 <= x < 2 ^ 32.

Definition NTSTATUS := Z.

Definition STATUS_SUCCESS : NTSTATUS := 0.
Definition STATUS_UNSUCCESSFUL : NTSTATUS := -1073741823.        (* 0xC0000001 *)
Definition STATUS_INVALID_IMAGE_FORMAT : NTSTATUS := -1073741701. (* 0xC000007B *)

Definition NT_SUCCESS (st : NTSTATUS) : bool := 0 <=? st.

Definition BOOLEAN := bool.
Definition TRUE : BOOLEAN := true.
Definition FALSE : BOOLEAN := false.

Definition DEFAULT_ALIGN_BYTES : Z := 8.

(* ------------------------------------------------------------------ *)
(** ** Memory reads *)

(** The bytes [off, off + cb) of a readable region, [None] when the read
    leaves the region.  A read of no byte touches no memory. *)
Definition read_span (mem : list byte) (off cb : Z) : option (list byte) :=
  if cb =? 0 then Some []
  else if (0 <=? off) && (off + cb <=? Z.of_nat (length mem))
       then Some (firstn (Z.to_nat cb) (skipn (Z.to_nat off) mem))
       else None.

(* ------------------------------------------------------------------ *)
(** ** The CNG hash context *)

(** Where the bytes handed to BCryptHashData come from. *)
Inductive region : Type :=
| Image       (* the mapped file, ViewInformation->ViewBase *)
| PadBuffer.  (* the local pbInput of HashpAddPad *)

Inductive event : Type :=
| EvHashData (src : region) (off : Z) (data : list byte) (st : NTSTATUS)
| EvFault (src : region) (off cb : Z)
| EvFinish (st : NTSTATUS).

Record CNG_CTX : Type := mkCNG_CTX {
  AlgHandle : list byte -> list byte;  (* digest of the absorbed stream *)
  Events : list event;                 (* calls on HashHandle, oldest first *)
  Script : list NTSTATUS;              (* statuses of the next calls *)
  Hash : list byte                     (* the digest buffer *)
}.

(** What a routine hands back: a value, a structured exception, or nothing
    yet when the iteration budget of the model is used up. *)
Inductive outcome (A : Type) : Type :=
| Returned (a : A)
| Raised
| OutOfFuel.
Arguments Returned {A} a.
Arguments Raised {A}.
Arguments OutOfFuel {A}.

(** Routines that work on a hash context. *)
Definition M (A : Type) : Type := CNG_CTX -> outcome A * CNG_CTX.

Definition ret {A : Type} (a : A) : M A := fun ctx => (Returned a, ctx).

Definition bind {A B : Type} (m : M A) (k : A -> M B) : M B :=
  fun ctx =>
    match m ctx with
    | (Returned a, ctx') => k a ctx'
    | (Raised, ctx') => (Raised, ctx')
    | (OutOfFuel, ctx') => (OutOfFuel, ctx')
    end.

Notation "x <- m ;; k" := (bind m (fun x => k))
  (at level 61, m at next level, right associativity).

Definition next_status (ctx : CNG_CTX) : NTSTATUS :=
  hd STATUS_SUCCESS (Script ctx).

Definition record_call (ctx : CNG_CTX) (e : event) : CNG_CTX :=
  {| AlgHandle := AlgHandle ctx;
     Events := Events ctx ++ [e];
     Script := tl (Script ctx);
     Hash := Hash ctx |}.

Definition record_fault (ctx : CNG_CTX) (e : event) : CNG_CTX :=
  {| AlgHandle := AlgHandle ctx;
     Events := Events ctx ++ [e];
     Script := Script ctx;
     Hash := Hash ctx |}.

(** The byte stream the hash object has absorbed: the data of the calls the
    provider accepted, in order. *)
Fixpoint absorbed (evs : list event) : list byte :=
  match evs with
  | [] => []
  | EvHashData _ _ data st :: evs' =>
      if NT_SUCCESS st then data ++ absorbed evs' else absorbed evs'
  | _ :: evs' => absorbed evs'
  end.

(** BCryptHashData(HashHandle, mem + off, cb, 0). *)
Definition BCryptHashData (src : region) (mem : list byte) (off cb : Z)
  : M NTSTATUS :=
  fun ctx =>
    match read_span mem off cb with
    | None => (Raised, record_fault ctx (EvFault src off cb))
    | Some data =>
        let st := next_status ctx in
        (Returned st, record_call ctx (EvHashData src off data st))
    end.

(** BCryptFinishHash(HashHandle, Hash, HashSize, 0). *)
Definition BCryptFinishHash : M NTSTATUS :=
  fun ctx =>
    let st := next_status ctx in
    (Returned st,
     {| AlgHandle := AlgHandle ctx;
        Events := Events ctx ++ [EvFinish st];
        Script := tl (Script ctx);
        Hash := if NT_SUCCESS st then AlgHandle ctx (absorbed (Events ctx))
                else Hash ctx |}).

(* ------------------------------------------------------------------ *)
(** ** HashpAddPad *)

(** UCHAR pbInput[DEFAULT_ALIGN_BYTES] = { 0, 0, 0, 0, 0, 0, 0, 0 }; *)
Definition pbInput : list byte := repeat x00 8.

(** [do { ... } while (i)]: one chunk of DEFAULT_ALIGN_BYTES zero bytes,
    [cbPad -= DEFAULT_ALIGN_BYTES], [--i], and again while [i] is not zero.
    The status of each call overwrites [ntStatus]; the loop hands back the
    last one and what is left of [cbPad]. *)
Equations? HashpAddPad_loop (i cbPad : Z) (ctx : CNG_CTX)
  : outcome (NTSTATUS * Z) * CNG_CTX
  by wf (Z.to_nat (wrap32 (i - 1))) lt :=
  HashpAddPad_loop i cbPad ctx
    with BCryptHashData PadBuffer pbInput 0 DEFAULT_ALIGN_BYTES ctx => {
    | (Raised, ctx') := (Raised, ctx');
    | (OutOfFuel, ctx') := (OutOfFuel, ctx');
    | (Returned ntStatus, ctx')
        with Z.eq_dec (wrap32 (i - 1)) 0 => {
        | left _ :=
            (Returned (ntStatus, wrap32 (cbPad - DEFAULT_ALIGN_BYTES)), ctx');
        | right _ :=
            HashpAddPad_loop (wrap32 (i - 1))
                             (wrap32 (cbPad - DEFAULT_ALIGN_BYTES)) ctx' } }.
Proof.
  unfold wrap32 in *.
  assert (0 <= (i - 1) mod 2 ^ 32 < 2 ^ 32) by (apply Z.mod_pos_bound; lia).
  rewrite (Z.mod_small ((i - 1) mod 2 ^ 32 - 1)) by lia.
  lia.
Qed.

Definition HashpAddPad (PaddingSize : Z) : M NTSTATUS :=
  let ntStatus := STATUS_SUCCESS in
  let cbPad := PaddingSize in
  r <- (if cbPad >=? DEFAULT_ALIGN_BYTES
        then HashpAddPad_loop (Z.shiftr cbPad 3) cbPad
        else ret (ntStatus, cbPad)) ;;
  let '(ntStatus, cbPad) := r in
  if negb (cbPad =? 0)
  then BCryptHashData PadBuffer pbInput 0 cbPad
  else ret ntStatus.

(* ------------------------------------------------------------------ *)
(** ** PE structures (winnt.h) and the view of the file *)

Definition IMAGE_NT_OPTIONAL_HDR32_MAGIC : Z := 267.  (* 0x10b *)
Definition IMAGE_NT_OPTIONAL_HDR64_MAGIC : Z := 523.  (* 0x20b *)

(** UFIELD_OFFSET(IMAGE_NT_HEADERSxx, OptionalHeader.CheckSum): the
    signature (4), the file header (20) and 64 bytes of optional header,
    in both layouts. *)
Definition CheckSum_offset32 : Z := 88.
Definition CheckSum_offset64 : Z := 88.

(** UFIELD_OFFSET(IMAGE_NT_HEADERSxx,
    OptionalHeader.DataDirectory[IMAGE_DIRECTORY_ENTRY_SECURITY]): the data
    directories start 96 (32-bit) or 112 (64-bit) bytes into the optional
    header, the security entry is the fifth of 8 bytes each. *)
Definition SecurityEntry_offset32 : Z := 152.
Definition SecurityEntry_offset64 : Z := 168.

(** RTL_FIELD_SIZE(IMAGE_OPTIONAL_HEADER, CheckSum) *)
Definition CheckSum_size : Z := 4.
(** sizeof(IMAGE_DATA_DIRECTORY) *)
Definition sizeof_IMAGE_DATA_DIRECTORY : Z := 8.

Record IMAGE_DATA_DIRECTORY : Type := mkDir {
  VirtualAddress : Z;
  Size : Z
}.

Record IMAGE_SECTION_HEADER : Type := mkSection {
  PointerToRawData : Z;
  SizeOfRawData : Z
}.

(** The fields of the NT headers that hash.cpp reads.  [SizeOfHeaders] and
    [DataDirectory_Security] are read through the 32- or the 64-bit layout
    that [Magic] selects; [SectionTable k] is IMAGE_FIRST_SECTION(..)[k],
    an array the source indexes without a bound. *)
Record IMAGE_NT_HEADERS : Type := mkNt {
  NumberOfSections : Z;
  Magic : Z;
  SizeOfHeaders : Z;
  DataDirectory_Security : IMAGE_DATA_DIRECTORY;
  SectionTable : Z -> IMAGE_SECTION_HEADER
}.

Inductive IMAGE_VERIFY : Type :=
| IMAGE_VERIFY_OK
| IMAGE_VERIFY_BAD_NTHEADERS
| IMAGE_VERIFY_BAD_OPTIONAL_HEADER_MAGIC
| IMAGE_VERIFY_BAD_SECTION_COUNT
| IMAGE_VERIFY_BAD_SECURITY_DIRECTORY_VA
| IMAGE_VERIFY_BAD_SECURITY_DIRECTORY_SIZE
| IMAGE_VERIFY_EXCEPTION_IN_PROCESS.

(** ExcludeData.  [SecurityDirectory] is a pointer into the headers, NULL
    ([None]) until HashpGetExcludeRange stores it. *)
Record FILE_EXCLUDE_DATA : Type := mkExclude {
  ChecksumOffset : Z;
  SecurityOffset : Z;
  SecurityDirectory : option IMAGE_DATA_DIRECTORY
}.

Record FILE_VIEW_INFO : Type := mkView {
  ViewBase : list byte;           (* the mapped bytes *)
  FileSize_LowPart : Z;           (* FileSize.LowPart *)
  e_lfanew : Z;                   (* ((PIMAGE_DOS_HEADER)ViewBase)->e_lfanew, a LONG *)
  NtHeaders : IMAGE_NT_HEADERS;
  ExcludeData : FILE_EXCLUDE_DATA;
  LastError : IMAGE_VERIFY
}.

Definition set_LastError (v : FILE_VIEW_INFO) (e : IMAGE_VERIFY)
  : FILE_VIEW_INFO :=
  {| ViewBase := ViewBase v; FileSize_LowPart := FileSize_LowPart v;
     e_lfanew := e_lfanew v; NtHeaders := NtHeaders v;
     ExcludeData := ExcludeData v; LastError := e |}.

Definition set_ExcludeData (v : FILE_VIEW_INFO) (x : FILE_EXCLUDE_DATA)
  : FILE_VIEW_INFO :=
  {| ViewBase := ViewBase v; FileSize_LowPart := FileSize_LowPart v;
     e_lfanew := e_lfanew v; NtHeaders := NtHeaders v;
     ExcludeData := x; LastError := LastError v |}.

(* ------------------------------------------------------------------ *)
(** ** HashpGetSizeOfHeaders *)

Definition HashpGetSizeOfHeaders (nt : IMAGE_NT_HEADERS) : Z :=
  if Magic nt =? IMAGE_NT_OPTIONAL_HDR64_MAGIC then SizeOfHeaders nt
  else if Magic nt =? IMAGE_NT_OPTIONAL_HDR32_MAGIC then SizeOfHeaders nt
  else 0.

(* ------------------------------------------------------------------ *)
(** ** HashpGetExcludeRange *)

(** The [switch] on the optional header magic: the two offsets and the
    directory entry, or nothing for an unknown magic. *)
Definition exclude_offsets (v : FILE_VIEW_INFO)
  : option (Z * Z * IMAGE_DATA_DIRECTORY) :=
  let nt := NtHeaders v in
  if Magic nt =? IMAGE_NT_OPTIONAL_HDR64_MAGIC then
    Some (wrap32 (e_lfanew v + CheckSum_offset64),
          wrap32 (e_lfanew v + SecurityEntry_offset64),
          DataDirectory_Security nt)
  else if Magic nt =? IMAGE_NT_OPTIONAL_HDR32_MAGIC then
    Some (wrap32 (e_lfanew v + CheckSum_offset32),
          wrap32 (e_lfanew v + SecurityEntry_offset32),
          DataDirectory_Security nt)
  else None.

(** The checks made when the directory has a virtual address: the error of
    the first one that fails. *)
Definition check_security_directory (v : FILE_VIEW_INFO)
    (dataDirectory : IMAGE_DATA_DIRECTORY) : option IMAGE_VERIFY :=
  let nt := NtHeaders v in
  let numberOfSections := NumberOfSections nt in
  if numberOfSections =? 0 then Some IMAGE_VERIFY_BAD_SECTION_COUNT
  else
    let last := SectionTable nt (wrap32 (numberOfSections - 1)) in
    let c := wrap32 (PointerToRawData last + SizeOfRawData last) in
    if VirtualAddress dataDirectory <? c
    then Some IMAGE_VERIFY_BAD_SECURITY_DIRECTORY_VA
    else if VirtualAddress dataDirectory >=? FileSize_LowPart v
    then Some IMAGE_VERIFY_BAD_SECURITY_DIRECTORY_VA
    else
      let c := wrap32 (FileSize_LowPart v - VirtualAddress dataDirectory) in
      if Size dataDirectory >? c
      then Some IMAGE_VERIFY_BAD_SECURITY_DIRECTORY_SIZE
      else None.

Definition HashpGetExcludeRange (ViewInformation : FILE_VIEW_INFO)
  : BOOLEAN * FILE_VIEW_INFO :=
  match exclude_offsets ViewInformation with
  | None =>
      (FALSE,
       set_LastError ViewInformation IMAGE_VERIFY_BAD_OPTIONAL_HEADER_MAGIC)
  | Some (checksumOffset, securityOffset, dataDirectory) =>
      let failure :=
        if negb (VirtualAddress dataDirectory =? 0)
        then check_security_directory ViewInformation dataDirectory
        else None in
      match failure with
      | Some e => (FALSE, set_LastError ViewInformation e)
      | None =>
          (TRUE,
           set_ExcludeData ViewInformation
             {| ChecksumOffset := checksumOffset;
                SecurityOffset := securityOffset;
                SecurityDirectory := Some dataDirectory |})
      end
  end.

(* ------------------------------------------------------------------ *)
(** ** CalculateFirstPageHash *)

(** How the [while] loop is left: by its test or its [break], with the
    offset reached, or by [return FALSE]. *)
Inductive loop_exit : Type :=
| LoopExit (offset : Z)
| LoopReturn (b : BOOLEAN).

(** [while (offset < PageSize) { ... }], at most [fuel] tests of the loop
    condition. *)
Fixpoint FirstPage_while (fuel : nat) (PageSize : Z)
    (ViewInformation : FILE_VIEW_INFO) (sizeOfHeaders : Z) (offset : Z)
  : M loop_exit :=
  match fuel with
  | O => fun ctx => (OutOfFuel, ctx)
  | S fuel' =>
      if offset <? PageSize then
        let offset :=
          if offset =? ChecksumOffset (ExcludeData ViewInformation)
          then wrap32 (offset + CheckSum_size)
          else if offset =? SecurityOffset (ExcludeData ViewInformation)
          then wrap32 (offset + sizeof_IMAGE_DATA_DIRECTORY)
          else offset in
        if offset >=? sizeOfHeaders then ret (LoopExit offset)
        else
          ntStatus <- BCryptHashData Image (ViewBase ViewInformation) offset 1 ;;
          if negb (NT_SUCCESS ntStatus) then ret (LoopReturn FALSE)
          else FirstPage_while fuel' PageSize ViewInformation sizeOfHeaders
                               (wrap32 (offset + 1))
      else ret (LoopExit offset)
  end.

(** The body of the [__try] block.  [ntStatus], STATUS_INVALID_IMAGE_FORMAT
    at first, is assigned by BCryptFinishHash before the final
    [return NT_SUCCESS(ntStatus)] reads it. *)
Definition CalculateFirstPageHash_try (fuel : nat) (PageSize : Z)
    (ViewInformation : FILE_VIEW_INFO) : M BOOLEAN :=
  let sizeOfHeaders := HashpGetSizeOfHeaders (NtHeaders ViewInformation) in
  x <- FirstPage_while fuel PageSize ViewInformation sizeOfHeaders 0 ;;
  match x with
  | LoopReturn b => ret b
  | LoopExit offset =>
      padded <- (if offset <? PageSize
                 then ntStatus <- HashpAddPad (wrap32 (PageSize - offset)) ;;
                      ret (NT_SUCCESS ntStatus)
                 else ret true) ;;
      if negb padded then ret FALSE
      else
        ntStatus <- BCryptFinishHash ;;
        ret (NT_SUCCESS ntStatus)
  end.

(** [__try { ... } __except (EXCEPTION_EXECUTE_HANDLER) { ... }] *)
Definition try_except (ViewInformation : FILE_VIEW_INFO) (body : M BOOLEAN)
    (HashContext : CNG_CTX) : outcome BOOLEAN * FILE_VIEW_INFO * CNG_CTX :=
  match body HashContext with
  | (Raised, ctx') =>
      (Returned FALSE,
       set_LastError ViewInformation IMAGE_VERIFY_EXCEPTION_IN_PROCESS, ctx')
  | (r, ctx') => (r, ViewInformation, ctx')
  end.

Definition CalculateFirstPageHash (fuel : nat) (PageSize : Z)
    (ViewInformation : FILE_VIEW_INFO) (HashContext : CNG_CTX)
  : outcome BOOLEAN * FILE_VIEW_INFO * CNG_CTX :=
  try_except ViewInformation
    (CalculateFirstPageHash_try fuel PageSize ViewInformation) HashContext.

(* ------------------------------------------------------------------ *)
(** ** CalculateAuthenticodeHash *)

(** [dataDirectory->VirtualAddress] and the like: reading through a NULL
    pointer raises. *)
Definition deref {A : Type} (p : option A) : M A :=
  fun ctx =>
    match p with
    | Some a => (Returned a, ctx)
    | None => (Raised, ctx)
    end.

(** The body of the [__try] block.  [ntStatus], STATUS_INVALID_IMAGE_FORMAT
    at first, is assigned by the first BCryptHashData. *)
Definition CalculateAuthenticodeHash_try (ViewInformation : FILE_VIEW_INFO)
  : M BOOLEAN :=
  let imageBase := ViewBase ViewInformation in
  let checksumOffset := ChecksumOffset (ExcludeData ViewInformation) in
  let securityOffset := SecurityOffset (ExcludeData ViewInformation) in
  let dataDirectory := SecurityDirectory (ExcludeData ViewInformation) in
  (* Handle checksum offset. *)
  let cbInput := checksumOffset in
  ntStatus <- BCryptHashData Image imageBase 0 cbInput ;;
  if NT_SUCCESS ntStatus then
    (* Handle security offset. *)
    let fileOffset := wrap32 (checksumOffset + CheckSum_size) in
    let cbInput := wrap32 (securityOffset - fileOffset) in
    ntStatus <- BCryptHashData Image imageBase fileOffset cbInput ;;
    if NT_SUCCESS ntStatus then
      let fileOffset := wrap32 (securityOffset + sizeof_IMAGE_DATA_DIRECTORY) in
      dir <- deref dataDirectory ;;
      let cbInput :=
        if VirtualAddress dir =? 0
        then wrap32 (FileSize_LowPart ViewInformation - fileOffset)
        else wrap32 (VirtualAddress dir - fileOffset) in
      ntStatus <- BCryptHashData Image imageBase fileOffset cbInput ;;
      if NT_SUCCESS ntStatus then
        let sz := cbInput mod DEFAULT_ALIGN_BYTES in
        padded <- (if negb (sz =? 0)
                   then let cbPad := DEFAULT_ALIGN_BYTES - sz in
                        ntStatus <- HashpAddPad cbPad ;;
                        ret (NT_SUCCESS ntStatus)
                   else ret true) ;;
        if negb padded then ret FALSE
        else
          ntStatus <- BCryptFinishHash ;;
          ret (NT_SUCCESS ntStatus)
      else ret (NT_SUCCESS ntStatus)
    else ret (NT_SUCCESS ntStatus)
  else ret (NT_SUCCESS ntStatus).

Definition CalculateAuthenticodeHash (ViewInformation : FILE_VIEW_INFO)
    (HashContext : CNG_CTX) : outcome BOOLEAN * FILE_VIEW_INFO * CNG_CTX :=
  try_except ViewInformation
    (CalculateAuthenticodeHash_try ViewInformation) HashContext.

(* ------------------------------------------------------------------ *)
(** ** CreateHashContext and DestroyHashContext

    The two routines only allocate and release: blocks of a heap, an
    algorithm provider and a hash object.  The heap and the CNG provider
    are the system's; they are modelled by the resources that are live and
    by the answers they will give to the next calls (an empty list answers
    with success), so that every failure pattern can be stated. *)

Definition STATUS_INSUFFICIENT_RESOURCES : NTSTATUS := -1073741670. (* 0xC000009A *)

Record SYSTEM : Type := mkSystem {
  heap_blocks : list (nat * nat);  (* (heap, block) allocated and not freed *)
  alg_handles : list nat;          (* algorithm providers opened, not closed *)
  hash_handles : list nat;         (* hash objects created, not destroyed *)
  next_id : nat;                   (* the next block or handle handed out *)
  alloc_answers : list bool;       (* whether the next HeapAlloc calls succeed *)
  cng_answers : list NTSTATUS;     (* statuses of the next BCrypt calls *)
  ObjectLength : Z;                (* BCRYPT_OBJECT_LENGTH of the algorithm *)
  HashLength : Z                   (* BCRYPT_HASH_LENGTH of the algorithm *)
}.

(** The fields of a CNG_CTX block; a NULL pointer or CNG handle is [None].
    HEAP_ZERO_MEMORY makes a new block [zero_ctx]. *)
Record CNG_CTX_FIELDS : Type := mkFields {
  ctx_AlgHandle : option nat;
  ctx_HashHandle : option nat;
  ctx_HashObject : option nat;
  ctx_HashObjectSize : Z;
  ctx_Hash : option nat;
  ctx_HashSize : Z;
  ctx_HeapHandle : nat             (* a HANDLE, 0 when NULL *)
}.

Definition zero_ctx : CNG_CTX_FIELDS := mkFields None None None 0 None 0 O.

Definition same_block (a b : nat * nat) : bool :=
  Nat.eqb (fst a) (fst b) && Nat.eqb (snd a) (snd b).

(** HeapAlloc(HeapHandle, HEAP_ZERO_MEMORY, size): a fresh block, or NULL. *)
Definition HeapAlloc (HeapHandle : nat) (sys : SYSTEM) : option nat * SYSTEM :=
  match alloc_answers sys with
  | false :: answers =>
      (None,
       mkSystem (heap_blocks sys) (alg_handles sys) (hash_handles sys)
                (next_id sys) answers (cng_answers sys)
                (ObjectLength sys) (HashLength sys))
  | answers =>
      (Some (next_id sys),
       mkSystem ((HeapHandle, next_id sys) :: heap_blocks sys)
                (alg_handles sys) (hash_handles sys)
                (S (next_id sys)) (tl answers) (cng_answers sys)
                (ObjectLength sys) (HashLength sys))
  end.

(** HeapFree(HeapHandle, 0, block). *)
Definition HeapFree (HeapHandle : nat) (block : nat) (sys : SYSTEM) : SYSTEM :=
  mkSystem (filter (fun b => negb (same_block b (HeapHandle, block)))
                   (heap_blocks sys))
           (alg_handles sys) (hash_handles sys) (next_id sys)
           (alloc_answers sys) (cng_answers sys)
           (ObjectLength sys) (HashLength sys).

(** BCryptOpenAlgorithmProvider(&handle, AlgId, NULL, 0). *)
Definition BCryptOpenAlgorithmProvider (sys : SYSTEM)
  : NTSTATUS * option nat * SYSTEM :=
  let st := hd STATUS_SUCCESS (cng_answers sys) in
  if NT_SUCCESS st then
    (st, Some (next_id sys),
     mkSystem (heap_blocks sys) (next_id sys :: alg_handles sys)
              (hash_handles sys) (S (next_id sys)) (alloc_answers sys)
              (tl (cng_answers sys)) (ObjectLength sys) (HashLength sys))
  else
    (st, None,
     mkSystem (heap_blocks sys) (alg_handles sys) (hash_handles sys)
              (next_id sys) (alloc_answers sys) (tl (cng_answers sys))
              (ObjectLength sys) (HashLength sys)).

(** BCryptGetProperty(handle, property, &value, sizeof(ULONG), &cb, 0):
    the status, and the value written ([None] when nothing is). *)
Definition BCryptGetProperty (value : SYSTEM -> Z) (sys : SYSTEM)
  : NTSTATUS * option Z * SYSTEM :=
  let st := hd STATUS_SUCCESS (cng_answers sys) in
  (st, if NT_SUCCESS st then Some (value sys) else None,
   mkSystem (heap_blocks sys) (alg_handles sys) (hash_handles sys)
            (next_id sys) (alloc_answers sys) (tl (cng_answers sys))
            (ObjectLength sys) (HashLength sys)).

(** BCryptCreateHash(AlgHandle, &HashHandle, HashObject, size, NULL, 0, 0). *)
Definition BCryptCreateHash (sys : SYSTEM) : NTSTATUS * option nat * SYSTEM :=
  let st := hd STATUS_SUCCESS (cng_answers sys) in
  if NT_SUCCESS st then
    (st, Some (next_id sys),
     mkSystem (heap_blocks sys) (alg_handles sys)
              (next_id sys :: hash_handles sys) (S (next_id sys))
              (alloc_answers sys) (tl (cng_answers sys))
              (ObjectLength sys) (HashLength sys))
  else
    (st, None,
     mkSystem (heap_blocks sys) (alg_handles sys) (hash_handles sys)
              (next_id sys) (alloc_answers sys) (tl (cng_answers sys))
              (ObjectLength sys) (HashLength sys)).

(** BCryptCloseAlgorithmProvider(handle, 0); a NULL handle closes nothing. *)
Definition BCryptCloseAlgorithmProvider (handle : option nat) (sys : SYSTEM)
  : SYSTEM :=
  match handle with
  | None => sys
  | Some a =>
      mkSystem (heap_blocks sys)
               (filter (fun x => negb (Nat.eqb x a)) (alg_handles sys))
               (hash_handles sys) (next_id sys) (alloc_answers sys)
               (cng_answers sys) (ObjectLength sys) (HashLength sys)
  end.

(** BCryptDestroyHash(handle). *)
Definition BCryptDestroyHash (handle : nat) (sys : SYSTEM) : SYSTEM :=
  mkSystem (heap_blocks sys) (alg_handles sys)
           (filter (fun x => negb (Nat.eqb x handle)) (hash_handles sys))
           (next_id sys) (alloc_answers sys) (cng_answers sys)
           (ObjectLength sys) (HashLength sys).

(** [if (p) HeapFree(HeapHandle, 0, p);] *)
Definition HeapFree_if (HeapHandle : nat) (p : option nat) (sys : SYSTEM)
  : SYSTEM :=
  match p with
  | Some block => HeapFree HeapHandle block sys
  | None => sys
  end.

(** What follows [do { ... } while (FALSE)] in CreateHashContext: reached
    by every [break]. *)
Definition CreateHashContext_release (HeapHandle context : nat)
    (f : CNG_CTX_FIELDS) (ntStatus : NTSTATUS) (sys : SYSTEM)
  : NTSTATUS * option (nat * CNG_CTX_FIELDS) * SYSTEM :=
  let sys := HeapFree_if HeapHandle (ctx_Hash f) sys in
  let sys := HeapFree_if HeapHandle (ctx_HashObject f) sys in
  let sys := HeapFree HeapHandle context sys in
  (ntStatus, None, sys).

(** CreateHashContext(HeapHandle, AlgId, &Context): the status, [*Context]
    (the block of the context and its fields, or NULL) and the system. *)
Definition CreateHashContext (HeapHandle : nat) (sys : SYSTEM)
  : NTSTATUS * option (nat * CNG_CTX_FIELDS) * SYSTEM :=
  match HeapAlloc HeapHandle sys with
  | (None, sys) => (STATUS_INSUFFICIENT_RESOURCES, None, sys)
  | (Some context, sys) =>
      let '(ntStatus, alg, sys) := BCryptOpenAlgorithmProvider sys in
      let f := mkFields alg None None 0 None 0 O in
      if negb (NT_SUCCESS ntStatus)
      then CreateHashContext_release HeapHandle context f ntStatus sys
      else
      let '(ntStatus, len, sys) := BCryptGetProperty ObjectLength sys in
      let objsize := match len with Some n => n | None => 0 end in
      let f := mkFields alg None None objsize None 0 O in
      if negb (NT_SUCCESS ntStatus)
      then CreateHashContext_release HeapHandle context f ntStatus sys
      else
      let '(ntStatus, len, sys) := BCryptGetProperty HashLength sys in
      let hashsize := match len with Some n => n | None => 0 end in
      let f := mkFields alg None None objsize None hashsize O in
      if negb (NT_SUCCESS ntStatus)
      then CreateHashContext_release HeapHandle context f ntStatus sys
      else
      let '(object, sys) := HeapAlloc HeapHandle sys in
      let f := mkFields alg None object objsize None hashsize O in
      match object with
      | None =>
          CreateHashContext_release HeapHandle context f
            STATUS_INSUFFICIENT_RESOURCES sys
      | Some _ =>
          let '(hash, sys) := HeapAlloc HeapHandle sys in
          let f := mkFields alg None object objsize hash hashsize O in
          match hash with
          | None =>
              CreateHashContext_release HeapHandle context f
                STATUS_INSUFFICIENT_RESOURCES sys
          | Some _ =>
              let '(ntStatus, handle, sys) := BCryptCreateHash sys in
              let f := mkFields alg handle object objsize hash hashsize O in
              if negb (NT_SUCCESS ntStatus)
              then CreateHashContext_release HeapHandle context f ntStatus sys
              else
                let f := mkFields alg handle object objsize hash hashsize
                                  HeapHandle in
                (STATUS_SUCCESS, Some (context, f), sys)
          end
      end
  end.

(** DestroyHashContext(Context). *)
Definition DestroyHashContext (Context : nat * CNG_CTX_FIELDS) (sys : SYSTEM)
  : SYSTEM :=
  let '(context, f) := Context in
  let heapHandle := ctx_HeapHandle f in
  let sys := BCryptCloseAlgorithmProvider (ctx_AlgHandle f) sys in
  let sys := match ctx_HashHandle f with
             | Some handle => BCryptDestroyHash handle sys
             | None => sys
             end in
  let sys := HeapFree_if heapHandle (ctx_Hash f) sys in
  let sys := HeapFree_if heapHandle (ctx_HashObject f) sys in
  HeapFree heapHandle context sys.

(** Every live block and handle was handed out before [next_id]. *)
Definition ids_below_next (sys : SYSTEM) : Prop :=
  Forall (fun b => (snd b < next_id sys)%nat) (heap_blocks sys)
  /\ Forall (fun a => (a < next_id sys)%nat) (alg_handles sys)
  /\ Forall (fun a => (a < next_id sys)%nat) (hash_handles sys).

(* ================================================================== *)
(** * Notions used in the statements *)

(** ** What HashpAddPad feeds *)

(** One chunk of [k] zero bytes taken from pbInput. *)
Definition feed_zeros (k : Z) (ctx : CNG_CTX) : CNG_CTX :=
  record_call ctx
    (EvHashData PadBuffer 0 (repeat x00 (Z.to_nat k)) (next_status ctx)).

(** [n] chunks of eight zero bytes, one after the other. *)
Fixpoint feed_chunks (n : nat) (ctx : CNG_CTX) : CNG_CTX :=
  match n with
  | O => ctx
  | S n' => feed_chunks n' (feed_zeros 8 ctx)
  end.

(** The context HashpAddPad leaves, and the status it hands back. *)
Definition pad_final (count : Z) (ctx : CNG_CTX) : CNG_CTX :=
  let c := feed_chunks (Z.to_nat (count / 8)) ctx in
  if count mod 8 =? 0 then c else feed_zeros (count mod 8) c.

Definition pad_status (count : Z) (ctx : CNG_CTX) : NTSTATUS :=
  if count mod 8 =? 0 then
    if count <? 8 then STATUS_SUCCESS
    else next_status (feed_chunks (Z.to_nat (count / 8) - 1) ctx)
  else next_status (feed_chunks (Z.to_nat (count / 8)) ctx).

(** A call on the hash object without the status it was answered with. *)
Inductive call : Type :=
| CallHashData (src : region) (off : Z) (data : list byte)
| CallFault (src : region) (off cb : Z)
| CallFinish.

Definition call_of (e : event) : call :=
  match e with
  | EvHashData src off data _ => CallHashData src off data
  | EvFault src off cb => CallFault src off cb
  | EvFinish _ => CallFinish
  end.

(** The bytes handed to BCryptHashData by a run of calls. *)
Definition fed_data (e : event) : list byte :=
  match e with
  | EvHashData _ _ data _ => data
  | _ => []
  end.

Definition fed_bytes (evs : list event) : list byte := flat_map fed_data evs.

(** The events of [n] chunks of eight zero bytes answered from [script]. *)
Fixpoint chunk_events (n : nat) (script : list NTSTATUS) : list event :=
  match n with
  | O => []
  | S n' =>
      EvHashData PadBuffer 0 (repeat x00 8) (hd STATUS_SUCCESS script)
      :: chunk_events n' (tl script)
  end.

(** The events of HashpAddPad(count) answered from [script]. *)
Definition pad_events (count : Z) (script : list NTSTATUS) : list event :=
  let n := Z.to_nat (count / 8) in
  chunk_events n script
  ++ (if count mod 8 =? 0 then []
      else [EvHashData PadBuffer 0 (repeat x00 (Z.to_nat (count mod 8)))
                       (hd STATUS_SUCCESS (skipn n script))]).

(** The calls of HashpAddPad(count). *)
Definition pad_calls (count : Z) : list call :=
  repeat (CallHashData PadBuffer 0 (repeat x00 8)) (Z.to_nat (count / 8))
  ++ (if count mod 8 =? 0 then []
      else [CallHashData PadBuffer 0 (repeat x00 (Z.to_nat (count mod 8)))]).

(** ** Offsets and spans *)

(** The end of the security directory entry, counted from the NT headers,
    in the layout the magic selects. *)
Definition SecurityEntry_end (magic : Z) : Z :=
  if magic =? IMAGE_NT_OPTIONAL_HDR64_MAGIC
  then SecurityEntry_offset64 + sizeof_IMAGE_DATA_DIRECTORY
  else SecurityEntry_offset32 + sizeof_IMAGE_DATA_DIRECTORY.

(** The bytes [a, b) of a region. *)
Definition span (mem : list byte) (a b : Z) : list byte :=
  firstn (Z.to_nat (b - a)) (skipn (Z.to_nat a) mem).

(** The end of the third span. *)
Definition certEnd_of (v : FILE_VIEW_INFO) (dir : IMAGE_DATA_DIRECTORY) : Z :=
  if VirtualAddress dir =? 0 then FileSize_LowPart v else VirtualAddress dir.

(** The zero bytes that bring [consumed] to a multiple of eight. *)
Definition alignment_pad (consumed : Z) : Z :=
  if consumed mod 8 =? 0 then 0 else 8 - consumed mod 8.

(** ** Views that differ where a signature is written *)

(** The offsets that belong to the certificate blob of a descriptor. *)
Definition in_cert_blob (x : FILE_EXCLUDE_DATA) (fsz i : Z) : Prop :=
  match SecurityDirectory x with
  | Some dir => VirtualAddress dir <> 0 /\ VirtualAddress dir <= i < fsz
  | None => False
  end.

(** Two views hold the same byte at every offset outside the checksum
    field, the security directory entry and the certificate blob. *)
Definition agree_outside (b1 b2 : list byte) (x : FILE_EXCLUDE_DATA)
    (fsz : Z) : Prop :=
  forall i : nat,
    (i < length b1)%nat ->
    ~ (ChecksumOffset x <= Z.of_nat i < ChecksumOffset x + 4) ->
    ~ (SecurityOffset x <= Z.of_nat i < SecurityOffset x + 8) ->
    ~ in_cert_blob x fsz (Z.of_nat i) ->
    nth i b1 x00 = nth i b2 x00.

(** ** Accesses to the image *)

(** A call that touches the image stays below [bound]. *)
Definition image_access_below (bound : Z) (e : event) : Prop :=
  match e with
  | EvHashData Image off data _ => off + Z.of_nat (length data) <= bound
  | EvFault Image off cb => off + cb <= bound
  | _ => True
  end.

(** [ctx'] continues [ctx] with events that all satisfy [P]. *)
Definition extends_with (P : event -> Prop) (ctx ctx' : CNG_CTX) : Prop :=
  exists new, Events ctx' = Events ctx ++ new /\ Forall P new.

(** ** The walk of the page hash *)

(** The two fields the walk steps over. *)
Definition skip_fields (cs so o : Z) : Z :=
  if o =? cs then o + 4 else if o =? so then o + 8 else o.

(** The walk of the page hash as the specification words it, on unbounded
    integers: [page_walk .. o evs o'] when the walk that is at offset [o]
    hashes the bytes [evs], one call each, and leaves the loop at [o']. *)
Inductive page_walk (PageSize cs so soh : Z) (img : list byte)
  : Z -> list event -> Z -> Prop :=
| walk_end (o : Z) :
    PageSize <= o ->
    page_walk PageSize cs so soh img o [] o
| walk_stop (o : Z) :
    o < PageSize ->
    soh <= skip_fields cs so o ->
    page_walk PageSize cs so soh img o [] (skip_fields cs so o)
| walk_byte (o : Z) (b : byte) (evs : list event) (o' : Z) :
    o < PageSize ->
    skip_fields cs so o < soh ->
    nth_error img (Z.to_nat (skip_fields cs so o)) = Some b ->
    page_walk PageSize cs so soh img (skip_fields cs so o + 1) evs o' ->
    page_walk PageSize cs so soh img o
      (EvHashData Image (skip_fields cs so o) [b] STATUS_SUCCESS :: evs) o'.

(** The zero bytes fed for an image of unknown magic: the page size less
    the field at offset 0 that the single pass of the loop steps over. *)
Definition unknown_magic_pad (PageSize cs so : Z) : Z :=
  let o := if 0 <? PageSize then skip_fields cs so 0 else 0 in
  if o <? PageSize then PageSize - o else 0.

(** ** Sample inputs *)

(** An unsigned 64-bit image of 1021 bytes with its NT headers at 64. *)
Definition unsigned_view : FILE_VIEW_INFO :=
  mkView (repeat x00 1021) 1021 64
         (mkNt 1 IMAGE_NT_OPTIONAL_HDR64_MAGIC 512 (mkDir 0 0)
               (fun _ => mkSection 512 509))
         (mkExclude 152 232 (Some (mkDir 0 0))) IMAGE_VERIFY_OK.

(** A context just opened: nothing fed yet, a provider that accepts every
    call, and the identity for digest, which shows the absorbed stream. *)
Definition fresh_ctx : CNG_CTX := mkCNG_CTX (fun s => s) [] [] [].

(** An image of 1024 bytes whose last section has no raw data and whose
    security directory claims the virtual address 8, in the DOS header. *)
Definition crafted_view : FILE_VIEW_INFO :=
  mkView (repeat x00 1024) 1024 64
         (mkNt 1 IMAGE_NT_OPTIONAL_HDR64_MAGIC 512 (mkDir 8 0)
               (fun _ => mkSection 0 0))
         (mkExclude 0 0 None) IMAGE_VERIFY_OK.

(** Two views of a 24-byte file that differ in the checksum field [2, 6),
    in the directory entry [8, 16) and in the certificate blob [20, 24). *)
Definition view_before : FILE_VIEW_INFO :=
  mkView (repeat x00 24) 24 0
         (mkNt 1 IMAGE_NT_OPTIONAL_HDR32_MAGIC 16 (mkDir 20 4)
               (fun _ => mkSection 16 4))
         (mkExclude 2 8 (Some (mkDir 20 4))) IMAGE_VERIFY_OK.

Definition view_after : FILE_VIEW_INFO :=
  mkView (repeat x00 2 ++ repeat x01 4 ++ repeat x00 2 ++ repeat x02 8
          ++ repeat x00 4 ++ repeat x03 4) 24 0
         (mkNt 1 IMAGE_NT_OPTIONAL_HDR32_MAGIC 16 (mkDir 20 4)
               (fun _ => mkSection 16 4))
         (mkExclude 2 8 (Some (mkDir 20 4))) IMAGE_VERIFY_OK.

(** A 32-bit image of 40 bytes with 24 bytes of headers, its checksum at
    offset 4 and its security directory entry at offset 12. *)
Definition small_view : FILE_VIEW_INFO :=
  mkView (repeat x01 40) 40 0
         (mkNt 1 IMAGE_NT_OPTIONAL_HDR32_MAGIC 24 (mkDir 0 0)
               (fun _ => mkSection 24 16))
         (mkExclude 4 12 (Some (mkDir 0 0))) IMAGE_VERIFY_OK.

(** A view whose optional header magic is the one of a ROM image. *)
Definition rom_view : FILE_VIEW_INFO :=
  mkView (repeat x01 64) 64 0
         (mkNt 1 263 32 (mkDir 0 0) (fun _ => mkSection 32 32))
         (mkExclude 0 0 None) IMAGE_VERIFY_OK.

(** ** Further notions *)

(** The number of chunks HashpAddPad(count) feeds. *)
Definition pad_chunk_count (count : Z) : nat :=
  Nat.add (Z.to_nat (count / 8)) (if count mod 8 =? 0 then 0%nat else 1%nat).

(** A data call that the provider accepted. *)
Definition accepted (e : event) : Prop :=
  match e with
  | EvHashData _ _ _ st => NT_SUCCESS st = true
  | _ => False
  end.

(** The finishing call. *)
Definition is_finish (e : event) : bool :=
  match e with
  | EvFinish _ => true
  | _ => false
  end.

(** A signed 32-bit image of 200 bytes as the loader hands it over: headers
    at offset 0, one section that ends at 176, a certificate blob of 24
    bytes at 176, and no descriptor yet. *)
Definition signed_view : FILE_VIEW_INFO :=
  mkView (repeat x01 200) 200 0
         (mkNt 1 IMAGE_NT_OPTIONAL_HDR32_MAGIC 160 (mkDir 176 24)
               (fun _ => mkSection 160 16))
         (mkExclude 0 0 None) IMAGE_VERIFY_OK.

(** Two views hold the same byte at every offset outside the checksum
    field and the security directory entry. *)
Definition agree_outside_fields (b1 b2 : list byte) (cs so : Z) : Prop :=
  forall i : nat,
    (i < length b1)%nat ->
    ~ (cs <= Z.of_nat i < cs + 4) ->
    ~ (so <= Z.of_nat i < so + 8) ->
    nth i b1 x00 = nth i b2 x00.

(** A call that may precede the finishing call of a page hash that
    succeeds: a byte of the image the provider accepted, or a chunk of
    padding. *)
Definition page_call_ok (e : event) : Prop :=
  match e with
  | EvHashData Image _ _ st => NT_SUCCESS st = true
  | EvHashData PadBuffer _ _ _ => True
  | EvFault _ _ _ => False
  | EvFinish _ => False
  end.


(** A system with nothing allocated, whose second HeapAlloc fails. *)
Definition short_heap_system : SYSTEM :=
  mkSystem [] [] [] 1 [true; false] [] 326 32.

(** A system with one live block, where every call succeeds. *)
Definition willing_system : SYSTEM :=
  mkSystem [(7, 1)%nat] [] [] 2 [] [] 326 32.


(** Where the byte at offset [i] of the image stands in the stream fed by
    CalculateAuthenticodeHash: the bytes in front of the checksum field
    keep their place, those between the two fields move up by 4, those
    behind the security directory entry by 12. *)
Definition hashed_index (cs so : Z) (i : nat) : nat :=
  if Z.of_nat i <? cs then i
  else if Z.of_nat i <? so then (i - 4)%nat
  else (i - 12)%nat.

(* ================================================================== *)
(** * Properties *)


(** ** Arithmetic and reads *)

Lemma wrap32_small (x : Z) : 0 <= x < 2 ^ 32 -> wrap32 x = x.
Proof. intros H. unfold wrap32. apply Z.mod_small. exact H. Qed.

Lemma wrap32_range (x : Z) : 0 <= wrap32 x < 2 ^ 32.
Proof. unfold wrap32. apply Z.mod_pos_bound. lia. Qed.

Lemma wrap32_sub_idemp (a b : Z) : wrap32 (wrap32 a - b) = wrap32 (a - b).
Proof. unfold wrap32. apply Zminus_mod_idemp_l. Qed.

Lemma firstn_repeat_le {A : Type} (x : A) (n m : nat) :
  (n <= m)%nat -> firstn n (repeat x m) = repeat x n.
Proof.
  revert m. induction n as [|n IH]; intros [|m] H; simpl; try reflexivity.
  - lia.
  - f_equal. apply IH. lia.
Qed.

(** ** HashpAddPad *)

Lemma BCryptHashData_pad (k : Z) (ctx : CNG_CTX) :
  0 < k <= 8 ->
  BCryptHashData PadBuffer pbInput 0 k ctx
  = (Returned (next_status ctx), feed_zeros k ctx).
Proof.
  intros Hk. unfold BCryptHashData, read_span, feed_zeros.
  destruct (Z.eqb_spec k 0) as [->|_]; [lia|].
  assert (E : (0 <=? 0) && (0 + k <=? Z.of_nat (length pbInput)) = true).
  { simpl. apply Z.leb_le. lia. }
  rewrite E. simpl skipn.
  assert (F : firstn (Z.to_nat k) pbInput = repeat x00 (Z.to_nat k)).
  { unfold pbInput. apply firstn_repeat_le. lia. }
  rewrite F. reflexivity.
Qed.

Lemma HashpAddPad_loop_step (i cbPad : Z) (ctx : CNG_CTX) :
  HashpAddPad_loop i cbPad ctx
  = if Z.eq_dec (wrap32 (i - 1)) 0
    then (Returned (next_status ctx, wrap32 (cbPad - 8)), feed_zeros 8 ctx)
    else HashpAddPad_loop (wrap32 (i - 1)) (wrap32 (cbPad - 8))
                          (feed_zeros 8 ctx).
Proof.
  rewrite HashpAddPad_loop_equation_1.
  unfold DEFAULT_ALIGN_BYTES.
  rewrite (BCryptHashData_pad 8 ctx) by lia.
  simpl. destruct (Z.eq_dec (wrap32 (i - 1)) 0); reflexivity.
Qed.

Lemma feed_chunks_snoc (n : nat) (ctx : CNG_CTX) :
  feed_chunks (S n) ctx = feed_zeros 8 (feed_chunks n ctx).
Proof.
  revert ctx. induction n as [|n IH]; intros ctx; [reflexivity|].
  change (feed_chunks (S (S n)) ctx) with (feed_chunks (S n) (feed_zeros 8 ctx)).
  rewrite IH. reflexivity.
Qed.

Lemma HashpAddPad_loop_spec (n : nat) (cbPad : Z) (ctx : CNG_CTX) :
  Z.of_nat (S n) < 2 ^ 32 ->
  HashpAddPad_loop (Z.of_nat (S n)) cbPad ctx
  = (Returned (next_status (feed_chunks n ctx),
               wrap32 (cbPad - 8 * Z.of_nat (S n))),
     feed_chunks (S n) ctx).
Proof.
  revert cbPad ctx. induction n as [|n IH]; intros cbPad ctx Hn.
  - rewrite HashpAddPad_loop_step. reflexivity.
  - rewrite HashpAddPad_loop_step.
    assert (E : wrap32 (Z.of_nat (S (S n)) - 1) = Z.of_nat (S n)).
    { rewrite wrap32_small by lia. lia. }
    rewrite E.
    destruct (Z.eq_dec (Z.of_nat (S n)) 0) as [C|_]; [lia|].
    rewrite IH by lia. rewrite wrap32_sub_idemp.
    replace (cbPad - 8 - 8 * Z.of_nat (S n))
      with (cbPad - 8 * Z.of_nat (S (S n))) by lia.
    reflexivity.
Qed.

Lemma HashpAddPad_eq (count : Z) (ctx : CNG_CTX) :
  u32 count ->
  HashpAddPad count ctx = (Returned (pad_status count ctx), pad_final count ctx).
Proof.
  intros [H0 H1]. unfold HashpAddPad, bind, pad_status, pad_final.
  unfold DEFAULT_ALIGN_BYTES.
  assert (Hm : 0 <= count mod 8 < 8) by (apply Z.mod_pos_bound; lia).
  pose proof (Z.div_mod count 8 ltac:(lia)) as Hd.
  destruct (Z.geb_spec count 8) as [Hge|Hlt].
  - assert (Hq : 1 <= count / 8 < 2 ^ 32).
    { split.
      - apply Z.div_le_lower_bound; lia.
      - apply Z.div_lt_upper_bound; lia. }
    rewrite Z.shiftr_div_pow2 by lia. change (2 ^ 3) with 8.
    destruct (Z.to_nat (count / 8)) as [|n] eqn:En; [lia|].
    replace (count / 8) with (Z.of_nat (S n)) by lia.
    rewrite HashpAddPad_loop_spec by lia.
    assert (Er : wrap32 (count - 8 * Z.of_nat (S n)) = count mod 8).
    { replace (count - 8 * Z.of_nat (S n)) with (count mod 8) by lia.
      apply wrap32_small. lia. }
    rewrite Er.
    destruct (Z.ltb_spec count 8) as [C|_]; [lia|].
    replace (S n - 1)%nat with n by lia.
    destruct (Z.eqb_spec (count mod 8) 0) as [Ez|Enz]; simpl.
    + reflexivity.
    + rewrite BCryptHashData_pad by lia. reflexivity.
  - assert (Hq : count / 8 = 0) by (apply Z.div_small; lia).
    assert (Er : count mod 8 = count) by (apply Z.mod_small; lia).
    rewrite Hq, Er. simpl Z.to_nat. unfold ret. simpl feed_chunks.
    destruct (Z.ltb_spec count 8) as [_|C]; [|lia].
    destruct (Z.eqb_spec count 0) as [Ez|Enz]; simpl.
    + reflexivity.
    + rewrite BCryptHashData_pad by lia. reflexivity.
Qed.

Lemma skipn_tl {A : Type} (n : nat) (l : list A) :
  skipn n (tl l) = skipn (S n) l.
Proof. destruct l; simpl; [apply skipn_nil|reflexivity]. Qed.

Lemma feed_chunks_fields (n : nat) (ctx : CNG_CTX) :
  Events (feed_chunks n ctx) = Events ctx ++ chunk_events n (Script ctx)
  /\ Script (feed_chunks n ctx) = skipn n (Script ctx)
  /\ AlgHandle (feed_chunks n ctx) = AlgHandle ctx
  /\ Hash (feed_chunks n ctx) = Hash ctx.
Proof.
  revert ctx. induction n as [|n IH]; intros ctx.
  - simpl. rewrite app_nil_r. auto.
  - simpl feed_chunks. destruct (IH (feed_zeros 8 ctx)) as (E & S' & A & H).
    rewrite E, S', A, H. simpl. rewrite <- app_assoc. simpl.
    repeat split. destruct (Script ctx); simpl; [apply skipn_nil|reflexivity].
Qed.

Lemma pad_final_Events (count : Z) (ctx : CNG_CTX) :
  Events (pad_final count ctx) = Events ctx ++ pad_events count (Script ctx).
Proof.
  unfold pad_final, pad_events.
  destruct (feed_chunks_fields (Z.to_nat (count / 8)) ctx) as (E & S' & _ & _).
  destruct (count mod 8 =? 0).
  - rewrite app_nil_r. exact E.
  - simpl. unfold next_status. rewrite E, S', app_assoc. reflexivity.
Qed.

Lemma chunk_events_calls (n : nat) (script : list NTSTATUS) :
  map call_of (chunk_events n script)
  = repeat (CallHashData PadBuffer 0 (repeat x00 8)) n.
Proof.
  revert script. induction n as [|n IH]; intros script; simpl.
  - reflexivity.
  - rewrite IH. reflexivity.
Qed.

Lemma chunk_events_bytes (n : nat) (script : list NTSTATUS) :
  fed_bytes (chunk_events n script) = repeat x00 (8 * n).
Proof.
  revert script. induction n as [|n IH]; intros script.
  - reflexivity.
  - replace (8 * S n)%nat with (8 + 8 * n)%nat by lia.
    rewrite repeat_app. unfold fed_bytes in *. simpl chunk_events.
    simpl flat_map. rewrite IH. reflexivity.
Qed.

Lemma pad_events_calls (count : Z) (script : list NTSTATUS) :
  map call_of (pad_events count script) = pad_calls count.
Proof.
  unfold pad_events, pad_calls. rewrite map_app, chunk_events_calls.
  destruct (count mod 8 =? 0); reflexivity.
Qed.

Lemma pad_events_bytes (count : Z) (script : list NTSTATUS) :
  0 <= count -> fed_bytes (pad_events count script) = repeat x00 (Z.to_nat count).
Proof.
  intros H0. unfold pad_events, fed_bytes. rewrite flat_map_app.
  fold (fed_bytes (chunk_events (Z.to_nat (count / 8)) script)).
  rewrite chunk_events_bytes.
  assert (Hm : 0 <= count mod 8 < 8) by (apply Z.mod_pos_bound; lia).
  pose proof (Z.div_mod count 8 ltac:(lia)) as Hd.
  assert (Hq : 0 <= count / 8) by (apply Z.div_pos; lia).
  destruct (Z.eqb_spec (count mod 8) 0) as [Ez|Enz]; simpl.
  - rewrite app_nil_r. f_equal. lia.
  - rewrite app_nil_r, <- repeat_app. f_equal. lia.
Qed.

(** C8.  For every ULONG [count], HashpAddPad(count) returns and hands the
    hash primitive exactly [count] zero bytes: [count / 8] chunks of eight
    bytes followed, when [count mod 8] is not zero, by one chunk of
    [count mod 8] bytes, every chunk read at offset 0 of the one eight-byte
    zero buffer pbInput; it makes no other call on the hash object. *)
Theorem HashpAddPad_feeds_zero_chunks (count : Z) (ctx : CNG_CTX) :
  u32 count ->
  exists st ctx' new,
    HashpAddPad count ctx = (Returned st, ctx')
    /\ Events ctx' = Events ctx ++ new
    /\ map call_of new
       = repeat (CallHashData PadBuffer 0 (repeat x00 8)) (Z.to_nat (count / 8))
         ++ (if count mod 8 =? 0 then []
             else [CallHashData PadBuffer 0
                     (repeat x00 (Z.to_nat (count mod 8)))])
    /\ fed_bytes new = repeat x00 (Z.to_nat count)
    /\ length pbInput = 8%nat.
Proof.
  intros Hc. exists (pad_status count ctx), (pad_final count ctx),
    (pad_events count (Script ctx)).
  split; [apply HashpAddPad_eq; exact Hc|].
  split; [apply pad_final_Events|].
  split; [apply pad_events_calls|].
  split; [apply pad_events_bytes; apply Hc|reflexivity].
Qed.

Lemma HashpAddPad_feeds_zero_chunks_witness :
  u32 21 /\
  exists st ctx' new,
    HashpAddPad 21 (mkCNG_CTX (fun s => s) [] [] []) = (Returned st, ctx')
    /\ Events ctx' = [] ++ new
    /\ map call_of new
       = repeat (CallHashData PadBuffer 0 (repeat x00 8)) (Z.to_nat (21 / 8))
         ++ (if 21 mod 8 =? 0 then []
             else [CallHashData PadBuffer 0 (repeat x00 (Z.to_nat (21 mod 8)))])
    /\ fed_bytes new = repeat x00 (Z.to_nat 21)
    /\ length pbInput = 8%nat.
Proof.
  assert (H : u32 21) by (unfold u32; lia).
  split; [exact H|].
  exact (HashpAddPad_feeds_zero_chunks 21 (mkCNG_CTX (fun s => s) [] [] []) H).
Defined.

(** C9 (the code departs from it).  With two chunks to feed, a provider
    that rejects the first and accepts the second makes HashpAddPad return
    STATUS_SUCCESS: the status of the first call is overwritten in the loop
    and never looked at. *)
Theorem HashpAddPad_overwrites_failure :
  let ctx := mkCNG_CTX (fun s => s) [] [STATUS_UNSUCCESSFUL; STATUS_SUCCESS] [] in
  fst (HashpAddPad 16 ctx) = Returned STATUS_SUCCESS
  /\ Events (snd (HashpAddPad 16 ctx))
     = [EvHashData PadBuffer 0 (repeat x00 8) STATUS_UNSUCCESSFUL;
        EvHashData PadBuffer 0 (repeat x00 8) STATUS_SUCCESS]
  /\ NT_SUCCESS STATUS_UNSUCCESSFUL = false.
Proof. vm_compute. auto. Qed.

(** ** HashpGetExcludeRange *)

(** With a recognised magic and a security directory that has a virtual
    address, the four checks are made in the order of the source and the
    first one that fails decides the error; the end of the last section's
    raw data is the 32-bit sum the source computes. *)
Lemma HashpGetExcludeRange_checks_in_order (v : FILE_VIEW_INFO)
    (cs so : Z) (dir : IMAGE_DATA_DIRECTORY) :
  exclude_offsets v = Some (cs, so, dir) ->
  VirtualAddress dir <> 0 ->
  0 <= VirtualAddress dir ->
  u32 (FileSize_LowPart v) ->
  let n := NumberOfSections (NtHeaders v) in
  let last := SectionTable (NtHeaders v) (wrap32 (n - 1)) in
  let c := wrap32 (PointerToRawData last + SizeOfRawData last) in
  let fsz := FileSize_LowPart v in
  HashpGetExcludeRange v =
    if n =? 0 then (FALSE, set_LastError v IMAGE_VERIFY_BAD_SECTION_COUNT)
    else if VirtualAddress dir <? c
    then (FALSE, set_LastError v IMAGE_VERIFY_BAD_SECURITY_DIRECTORY_VA)
    else if fsz <=? VirtualAddress dir
    then (FALSE, set_LastError v IMAGE_VERIFY_BAD_SECURITY_DIRECTORY_VA)
    else if fsz - VirtualAddress dir <? Size dir
    then (FALSE, set_LastError v IMAGE_VERIFY_BAD_SECURITY_DIRECTORY_SIZE)
    else (TRUE, set_ExcludeData v (mkExclude cs so (Some dir))).
Proof.
  intros Hx Hva Hva0 Hfsz n last c fsz.
  unfold HashpGetExcludeRange. rewrite Hx.
  destruct (Z.eqb_spec (VirtualAddress dir) 0) as [C|_]; [contradiction|].
  simpl negb. cbv iota. unfold check_security_directory.
  fold n. destruct (n =? 0); [reflexivity|].
  fold last. fold c. destruct (VirtualAddress dir <? c); [reflexivity|].
  fold fsz. rewrite Z.geb_leb.
  destruct (Z.leb_spec fsz (VirtualAddress dir)) as [Hle|Hlt]; [reflexivity|].
  rewrite Z.gtb_ltb, wrap32_small by (unfold u32, fsz in *; lia).
  destruct (fsz - VirtualAddress dir <? Size dir); reflexivity.
Qed.

(** C3 (the code departs from it).  A last section whose raw data starts
    at 0x200 and is 0xFFFFFE01 bytes long ends, in 32-bit arithmetic, at
    offset 1.  A security directory at 0x400, inside that raw-data span,
    passes every check of HashpGetExcludeRange. *)
Theorem HashpGetExcludeRange_raw_span_overflow :
  let last := mkSection 512 4294966785 in
  let dir := mkDir 1024 0 in
  let v := mkView (repeat x00 1536) 1536 128
                  (mkNt 1 IMAGE_NT_OPTIONAL_HDR64_MAGIC 512 dir (fun _ => last))
                  (mkExclude 0 0 None) IMAGE_VERIFY_OK in
  VirtualAddress dir <> 0
  /\ PointerToRawData last <= VirtualAddress dir
     < PointerToRawData last + SizeOfRawData last
  /\ HashpGetExcludeRange v
     = (TRUE, set_ExcludeData v (mkExclude 216 296 (Some dir))).
Proof.
  cbv zeta. split; [simpl; lia|]. split; [simpl; lia|]. reflexivity.
Qed.




(** C7.  With a recognised magic and a security directory whose virtual
    address is 0, HashpGetExcludeRange succeeds whatever the number of
    sections, the section table, the size field of the directory and the
    file size are: it stores the two offsets and the directory and leaves
    LastError alone. *)
Theorem HashpGetExcludeRange_unsigned (base : list byte) (fsz lfanew : Z)
    (n magic soh size : Z) (table : Z -> IMAGE_SECTION_HEADER)
    (x : FILE_EXCLUDE_DATA) (err : IMAGE_VERIFY) :
  magic = IMAGE_NT_OPTIONAL_HDR32_MAGIC \/ magic = IMAGE_NT_OPTIONAL_HDR64_MAGIC ->
  HashpGetExcludeRange
    (mkView base fsz lfanew (mkNt n magic soh (mkDir 0 size) table) x err)
  = (TRUE,
     mkView base fsz lfanew (mkNt n magic soh (mkDir 0 size) table)
       (mkExclude (wrap32 (lfanew + 88))
                  (wrap32 (lfanew + (if magic =? IMAGE_NT_OPTIONAL_HDR64_MAGIC
                                     then 168 else 152)))
                  (Some (mkDir 0 size)))
       err).
Proof.
  intros [-> | ->]; reflexivity.
Qed.

Lemma HashpGetExcludeRange_unsigned_witness :
  HashpGetExcludeRange
    (mkView [] 0 64 (mkNt 0 523 512 (mkDir 0 77) (fun _ => mkSection 9 9))
            (mkExclude 0 0 None) IMAGE_VERIFY_OK)
  = (TRUE,
     mkView [] 0 64 (mkNt 0 523 512 (mkDir 0 77) (fun _ => mkSection 9 9))
       (mkExclude (wrap32 (64 + 88))
                  (wrap32 (64 + (if 523 =? IMAGE_NT_OPTIONAL_HDR64_MAGIC
                                 then 168 else 152)))
                  (Some (mkDir 0 77)))
       IMAGE_VERIFY_OK).
Proof.
  apply (HashpGetExcludeRange_unsigned [] 0 64 0 523 512 77
           (fun _ => mkSection 9 9) (mkExclude 0 0 None) IMAGE_VERIFY_OK).
  right. reflexivity.
Defined.

(** ** Runs with a provider that accepts every call *)

Lemma read_span_in (mem : list byte) (a b : Z) :
  0 <= a -> a <= b -> b <= Z.of_nat (length mem) ->
  read_span mem a (b - a) = Some (span mem a b).
Proof.
  intros H0 Hab Hb. unfold read_span, span.
  destruct (Z.eqb_spec (b - a) 0) as [E|_].
  - rewrite E. reflexivity.
  - assert (E : (0 <=? a) && (a + (b - a) <=? Z.of_nat (length mem)) = true).
    { apply andb_true_intro. split; apply Z.leb_le; lia. }
    rewrite E. reflexivity.
Qed.

Lemma BCryptHashData_ok (src : region) (mem : list byte) (a b : Z)
    (alg : list byte -> list byte) (evs : list event) (h : list byte) :
  0 <= a -> a <= b -> b <= Z.of_nat (length mem) ->
  BCryptHashData src mem a (b - a) (mkCNG_CTX alg evs [] h)
  = (Returned STATUS_SUCCESS,
     mkCNG_CTX alg (evs ++ [EvHashData src a (span mem a b) STATUS_SUCCESS]) [] h).
Proof.
  intros H0 Hab Hb. unfold BCryptHashData.
  rewrite read_span_in by assumption. reflexivity.
Qed.

Lemma ctx_ext (c : CNG_CTX) (alg : list byte -> list byte)
    (evs : list event) (sc : list NTSTATUS) (h : list byte) :
  AlgHandle c = alg -> Events c = evs -> Script c = sc -> Hash c = h ->
  c = mkCNG_CTX alg evs sc h.
Proof. destruct c; simpl; intros; subst; reflexivity. Qed.

Lemma HashpAddPad_ok (count : Z) (alg : list byte -> list byte)
    (evs : list event) (h : list byte) :
  u32 count ->
  HashpAddPad count (mkCNG_CTX alg evs [] h)
  = (Returned STATUS_SUCCESS, mkCNG_CTX alg (evs ++ pad_events count []) [] h).
Proof.
  intros Hc. rewrite HashpAddPad_eq by exact Hc.
  set (ctx := mkCNG_CTX alg evs [] h).
  assert (Hs : forall n, next_status (feed_chunks n ctx) = STATUS_SUCCESS).
  { intros n. unfold next_status.
    destruct (feed_chunks_fields n ctx) as (_ & S' & _ & _).
    rewrite S'. simpl. rewrite skipn_nil. reflexivity. }
  f_equal.
  - unfold pad_status. rewrite !Hs.
    destruct (count mod 8 =? 0), (count <? 8); reflexivity.
  - apply ctx_ext.
    + unfold pad_final.
      destruct (feed_chunks_fields (Z.to_nat (count / 8)) ctx) as (_ & _ & A & _).
      destruct (count mod 8 =? 0); simpl; rewrite A; reflexivity.
    + apply pad_final_Events.
    + unfold pad_final.
      destruct (feed_chunks_fields (Z.to_nat (count / 8)) ctx) as (_ & S' & _ & _).
      destruct (count mod 8 =? 0); simpl; rewrite S'; simpl;
        rewrite skipn_nil; reflexivity.
    + unfold pad_final.
      destruct (feed_chunks_fields (Z.to_nat (count / 8)) ctx) as (_ & _ & _ & H).
      destruct (count mod 8 =? 0); simpl; rewrite H; reflexivity.
Qed.

Lemma pad_events_small (k : Z) :
  0 < k < 8 ->
  pad_events k []
  = [EvHashData PadBuffer 0 (repeat x00 (Z.to_nat k)) STATUS_SUCCESS].
Proof.
  intros Hk. unfold pad_events.
  rewrite Z.div_small, Z.mod_small by lia.
  destruct (Z.eqb_spec k 0) as [C|_]; [lia|]. reflexivity.
Qed.

Lemma absorbed_app (e1 e2 : list event) :
  absorbed (e1 ++ e2) = absorbed e1 ++ absorbed e2.
Proof.
  induction e1 as [|e e1 IH]; simpl; [reflexivity|].
  destruct e; try exact IH.
  destruct (NT_SUCCESS st); rewrite IH; [rewrite app_assoc|]; reflexivity.
Qed.

(** ** CalculateAuthenticodeHash *)

Lemma CalculateAuthenticodeHash_try_ok (v : FILE_VIEW_INFO)
    (dir : IMAGE_DATA_DIRECTORY) (alg : list byte -> list byte)
    (evs : list event) (h : list byte) :
  let cs := ChecksumOffset (ExcludeData v) in
  let so := SecurityOffset (ExcludeData v) in
  let certStart := so + 8 in
  let certEnd := certEnd_of v dir in
  let img := ViewBase v in
  SecurityDirectory (ExcludeData v) = Some dir ->
  0 <= cs -> cs + 4 <= so -> certStart <= certEnd ->
  certEnd <= Z.of_nat (length img) -> certEnd < 2 ^ 32 ->
  let new :=
    [EvHashData Image 0 (span img 0 cs) STATUS_SUCCESS;
     EvHashData Image (cs + 4) (span img (cs + 4) so) STATUS_SUCCESS;
     EvHashData Image certStart (span img certStart certEnd) STATUS_SUCCESS]
    ++ (if (certEnd - certStart) mod 8 =? 0 then []
        else [EvHashData PadBuffer 0
                (repeat x00 (Z.to_nat (8 - (certEnd - certStart) mod 8)))
                STATUS_SUCCESS]) in
  CalculateAuthenticodeHash_try v (mkCNG_CTX alg evs [] h)
  = (Returned TRUE,
     mkCNG_CTX alg (evs ++ new ++ [EvFinish STATUS_SUCCESS]) []
               (alg (absorbed (evs ++ new)))).
Proof.
  intros cs so certStart certEnd img Hdir H0 H1 H2 H3 H4 new.
  unfold CalculateAuthenticodeHash_try.
  fold cs so img. rewrite Hdir.
  unfold CheckSum_size, sizeof_IMAGE_DATA_DIRECTORY, DEFAULT_ALIGN_BYTES.
  assert (Ecb : (if VirtualAddress dir =? 0
                 then wrap32 (FileSize_LowPart v - wrap32 (so + 8))
                 else wrap32 (VirtualAddress dir - wrap32 (so + 8)))
                = certEnd - certStart).
  { unfold certEnd, certEnd_of, certStart in *.
    destruct (VirtualAddress dir =? 0);
      rewrite (wrap32_small (so + 8)) by lia; apply wrap32_small; lia. }
  unfold bind at 1.
  replace cs with (cs - 0) at 1 by lia.
  rewrite BCryptHashData_ok by lia.
  change (NT_SUCCESS STATUS_SUCCESS) with true. cbv iota.
  unfold bind at 1.
  rewrite (wrap32_small (cs + 4)) by lia.
  rewrite (wrap32_small (so - (cs + 4))) by lia.
  rewrite BCryptHashData_ok by lia.
  change (NT_SUCCESS STATUS_SUCCESS) with true. cbv iota.
  unfold bind at 1. unfold deref at 1.
  rewrite Ecb.
  unfold bind at 1.
  rewrite (wrap32_small (so + 8)) by (unfold certStart in *; lia).
  fold certStart.
  rewrite BCryptHashData_ok by (unfold certStart in *; lia).
  change (NT_SUCCESS STATUS_SUCCESS) with true. cbv iota.
  assert (Hm : 0 <= (certEnd - certStart) mod 8 < 8)
    by (apply Z.mod_pos_bound; lia).
  unfold new.
  destruct (Z.eqb_spec ((certEnd - certStart) mod 8) 0) as [Ez|Enz].
  - simpl negb. cbv iota. unfold bind, ret, BCryptFinishHash. simpl.
    rewrite <- !app_assoc. simpl. reflexivity.
  - simpl negb. cbv iota. unfold bind at 1. unfold bind at 1.
    rewrite HashpAddPad_ok by (unfold u32; lia).
    rewrite pad_events_small by lia.
    unfold ret, bind, BCryptFinishHash. simpl.
    rewrite <- !app_assoc. simpl. reflexivity.
Qed.

(** C1, amended.  When the descriptor satisfies
    [checksumOffset + 4 <= securityOffset], the third span is well formed
    ([certStart <= certEnd], with [certEnd] a ULONG inside the view) and the
    provider accepts every call, CalculateAuthenticodeHash returns TRUE
    after handing the hash primitive exactly: the span [0, checksumOffset),
    the span [checksumOffset + 4, securityOffset), the span
    [certStart, certEnd) with [certStart = securityOffset + 8] and
    [certEnd] the file size when the directory has no virtual address and
    that virtual address otherwise, then, only when
    [(certEnd - certStart) mod 8] is not zero, one chunk of
    [8 - (certEnd - certStart) mod 8] zero bytes, and then the finishing
    call; the digest is the one of these bytes. *)
Theorem CalculateAuthenticodeHash_feeds_spans (v : FILE_VIEW_INFO)
    (ctx : CNG_CTX) (dir : IMAGE_DATA_DIRECTORY) :
  let cs := ChecksumOffset (ExcludeData v) in
  let so := SecurityOffset (ExcludeData v) in
  let certStart := so + 8 in
  let certEnd :=
    if VirtualAddress dir =? 0 then FileSize_LowPart v else VirtualAddress dir in
  let img := ViewBase v in
  SecurityDirectory (ExcludeData v) = Some dir ->
  0 <= cs -> cs + 4 <= so -> certStart <= certEnd ->
  certEnd <= Z.of_nat (length img) -> certEnd < 2 ^ 32 ->
  Script ctx = [] ->
  exists ctx',
    CalculateAuthenticodeHash v ctx = (Returned TRUE, v, ctx')
    /\ Events ctx'
       = Events ctx
         ++ [EvHashData Image 0 (span img 0 cs) STATUS_SUCCESS;
             EvHashData Image (cs + 4) (span img (cs + 4) so) STATUS_SUCCESS;
             EvHashData Image certStart (span img certStart certEnd)
                        STATUS_SUCCESS]
         ++ (if (certEnd - certStart) mod 8 =? 0 then []
             else [EvHashData PadBuffer 0
                     (repeat x00 (Z.to_nat (8 - (certEnd - certStart) mod 8)))
                     STATUS_SUCCESS])
         ++ [EvFinish STATUS_SUCCESS]
    /\ Hash ctx'
       = AlgHandle ctx
           (absorbed (Events ctx)
            ++ span img 0 cs ++ span img (cs + 4) so
            ++ span img certStart certEnd
            ++ repeat x00 (Z.to_nat (alignment_pad (certEnd - certStart)))).
Proof.
  intros cs so certStart certEnd img Hdir H0 H1 H2 H3 H4 Hs.
  destruct ctx as [alg evs sc h]. simpl in Hs. subst sc.
  unfold CalculateAuthenticodeHash, try_except.
  rewrite (CalculateAuthenticodeHash_try_ok v dir alg evs h Hdir H0 H1 H2 H3 H4).
  eexists. split; [reflexivity|]. simpl Events. simpl Hash. simpl AlgHandle.
  fold cs so certStart img. change (certEnd_of v dir) with certEnd.
  split.
  - rewrite <- ?app_assoc. reflexivity.
  - f_equal. rewrite absorbed_app. f_equal. unfold alignment_pad.
    destruct ((certEnd - certStart) mod 8 =? 0); simpl;
      rewrite ?app_nil_r; reflexivity.
Qed.

Lemma CalculateAuthenticodeHash_feeds_spans_witness :
  exists ctx',
    CalculateAuthenticodeHash unsigned_view fresh_ctx
    = (Returned TRUE, unsigned_view, ctx')
    /\ Events ctx'
       = [EvHashData Image 0 (repeat x00 152) STATUS_SUCCESS;
          EvHashData Image 156 (repeat x00 76) STATUS_SUCCESS;
          EvHashData Image 240 (repeat x00 781) STATUS_SUCCESS;
          EvHashData PadBuffer 0 (repeat x00 3) STATUS_SUCCESS;
          EvFinish STATUS_SUCCESS].
Proof.
  destruct (CalculateAuthenticodeHash_feeds_spans unsigned_view fresh_ctx
              (mkDir 0 0)) as (ctx' & Hrun & Hev & _).
  - reflexivity.
  - simpl. lia.
  - simpl. lia.
  - simpl. lia.
  - simpl. lia.
  - simpl. lia.
  - reflexivity.
  - exists ctx'. split; [exact Hrun|]. rewrite Hev. vm_compute. reflexivity.
Defined.

(** C1, as stated, fails: HashpGetExcludeRange accepts [crafted_view], with
    [certStart = 240] and [certEnd = 8]; the third call then asks for
    4294967064 bytes at offset 240, the read leaves the view, and the
    hasher returns FALSE without a finishing call. *)
Lemma CalculateAuthenticodeHash_span_underflow :
  let v := snd (HashpGetExcludeRange crafted_view) in
  let r := CalculateAuthenticodeHash v fresh_ctx in
  fst (HashpGetExcludeRange crafted_view) = TRUE
  /\ ExcludeData v = mkExclude 152 232 (Some (mkDir 8 0))
  /\ fst r = (Returned FALSE, set_LastError v IMAGE_VERIFY_EXCEPTION_IN_PROCESS)
  /\ map call_of (Events (snd r))
     = [CallHashData Image 0 (repeat x00 152);
        CallHashData Image 156 (repeat x00 76);
        CallFault Image 240 4294967064]
  /\ Hash (snd r) = Hash fresh_ctx.
Proof. vm_compute. repeat split. Qed.

(** ** Two views of one file *)

Lemma read_span_agree (b1 b2 : list byte) (off cb : Z) :
  length b1 = length b2 ->
  (forall i : nat, (i < length b1)%nat -> off <= Z.of_nat i < off + cb ->
                   nth i b1 x00 = nth i b2 x00) ->
  read_span b1 off cb = read_span b2 off cb.
Proof.
  intros Hlen Hag. unfold read_span. rewrite <- Hlen.
  destruct (cb =? 0); [reflexivity|].
  destruct ((0 <=? off) && (off + cb <=? Z.of_nat (length b1))) eqn:E;
    [|reflexivity].
  apply andb_prop in E. destruct E as [E0 E1].
  apply Z.leb_le in E0. apply Z.leb_le in E1.
  f_equal. apply (nth_ext _ _ x00 x00).
  - rewrite !length_firstn, !length_skipn, Hlen. reflexivity.
  - intros n Hn. rewrite length_firstn, length_skipn in Hn.
    rewrite !nth_firstn. destruct (n <? Z.to_nat cb)%nat eqn:En; [|reflexivity].
    apply Nat.ltb_lt in En. rewrite !nth_skipn. apply Hag; lia.
Qed.

Lemma BCryptHashData_agree (b1 b2 : list byte) (off cb : Z) (ctx : CNG_CTX) :
  read_span b1 off cb = read_span b2 off cb ->
  BCryptHashData Image b1 off cb ctx = BCryptHashData Image b2 off cb ctx.
Proof. intros E. unfold BCryptHashData. rewrite E. reflexivity. Qed.

(** What a call of BCryptHashData can do. *)
Lemma BCryptHashData_cases (src : region) (mem : list byte) (off cb : Z)
    (ctx : CNG_CTX) :
  (exists c, BCryptHashData src mem off cb ctx = (Raised, c)
             /\ Hash c = Hash ctx)
  \/ (exists c, BCryptHashData src mem off cb ctx
                = (Returned (next_status ctx), c)
                /\ Hash c = Hash ctx
                /\ (cb = 0 \/ 0 <= off /\ off + cb <= Z.of_nat (length mem))).
Proof.
  unfold BCryptHashData, read_span.
  destruct (Z.eqb_spec cb 0) as [E|E].
  - right. eexists. split; [reflexivity|]. split; [reflexivity|]. left. exact E.
  - destruct ((0 <=? off) && (off + cb <=? Z.of_nat (length mem))) eqn:B.
    + right. eexists. split; [reflexivity|]. split; [reflexivity|]. right.
      apply andb_prop in B. destruct B as [B0 B1].
      apply Z.leb_le in B0. apply Z.leb_le in B1. lia.
    + left. eexists. split; reflexivity.
Qed.

Lemma BCryptHashData_wrapped (src : region) (mem : list byte) (off cb : Z)
    (ctx : CNG_CTX) :
  cb <> 0 -> Z.of_nat (length mem) < off + cb ->
  exists c, BCryptHashData src mem off cb ctx = (Raised, c)
            /\ Hash c = Hash ctx.
Proof.
  intros Hcb Hout.
  destruct (BCryptHashData_cases src mem off cb ctx)
    as [H | (c & _ & _ & [C | C])]; [exact H | contradiction | lia].
Qed.

Lemma wrap32_neg (x : Z) : - 2 ^ 32 <= x < 0 -> wrap32 x = x + 2 ^ 32.
Proof.
  intros H. unfold wrap32.
  rewrite <- (Z.mod_small (x + 2 ^ 32) (2 ^ 32)) by lia.
  replace (x + 2 ^ 32) with (x + 1 * 2 ^ 32) by lia.
  rewrite Z.mod_add by lia. reflexivity.
Qed.

(** A descriptor whose spans are not in order never reaches the finishing
    call: on a view shorter than 4 GiB the span that wraps around leaves
    the view. *)
Lemma CalculateAuthenticodeHash_ill_formed (v : FILE_VIEW_INFO)
    (ctx : CNG_CTX) :
  let x := ExcludeData v in
  u32 (ChecksumOffset x) -> u32 (SecurityOffset x) ->
  u32 (FileSize_LowPart v) ->
  (forall dir, SecurityDirectory x = Some dir -> u32 (VirtualAddress dir)) ->
  Z.of_nat (length (ViewBase v)) + 16 <= 2 ^ 32 ->
  (forall dir, SecurityDirectory x = Some dir ->
     ~ (ChecksumOffset x + 4 <= SecurityOffset x
        /\ SecurityOffset x + 8 <= certEnd_of v dir)) ->
  exists v' c',
    CalculateAuthenticodeHash v ctx = (Returned FALSE, v', c')
    /\ Hash c' = Hash ctx.
Proof.
  intros x Hcs Hso Hfsz Hva Hlen Hill.
  unfold CalculateAuthenticodeHash, try_except, CalculateAuthenticodeHash_try.
  fold x. set (cs := ChecksumOffset x) in *. set (so := SecurityOffset x) in *.
  set (img := ViewBase v) in *.
  unfold CheckSum_size, sizeof_IMAGE_DATA_DIRECTORY, u32 in *.
  unfold bind at 1.
  destruct (BCryptHashData_cases Image img 0 cs ctx)
    as [(c1 & E1 & H1) | (c1 & E1 & H1 & B1)]; rewrite E1;
    [do 2 eexists; split; [reflexivity|exact H1]|].
  destruct (NT_SUCCESS (next_status ctx));
    [|do 2 eexists; split; [reflexivity|exact H1]].
  assert (Hcs' : cs <= Z.of_nat (length img)) by lia.
  rewrite (wrap32_small (cs + 4)) by lia.
  unfold bind at 1.
  destruct (Z_lt_ge_dec so (cs + 4)) as [Hlt|Hge].
  { destruct (BCryptHashData_wrapped Image img (cs + 4)
                (wrap32 (so - (cs + 4))) c1) as (c2 & E2 & H2).
    - rewrite wrap32_neg by lia. lia.
    - rewrite wrap32_neg by lia. lia.
    - rewrite E2. do 2 eexists. split; [reflexivity|congruence]. }
  rewrite (wrap32_small (so - (cs + 4))) by lia.
  destruct (BCryptHashData_cases Image img (cs + 4) (so - (cs + 4)) c1)
    as [(c2 & E2 & H2) | (c2 & E2 & H2 & B2)]; rewrite E2;
    [do 2 eexists; split; [reflexivity|congruence]|].
  destruct (NT_SUCCESS (next_status c1));
    [|do 2 eexists; split; [reflexivity|congruence]].
  assert (Hso' : so <= Z.of_nat (length img) + 4) by lia.
  rewrite (wrap32_small (so + 8)) by lia.
  unfold bind at 1. unfold deref at 1.
  destruct (SecurityDirectory x) as [dir|] eqn:Edir;
    [|do 2 eexists; split; [reflexivity|congruence]].
  specialize (Hva dir eq_refl). specialize (Hill dir eq_refl).
  unfold certEnd_of in Hill.
  unfold bind at 1.
  match goal with
  | |- context [BCryptHashData Image img (so + 8) ?cb c2] =>
      destruct (BCryptHashData_wrapped Image img (so + 8) cb c2)
        as (c3 & E3 & H3)
  end.
  - destruct (VirtualAddress dir =? 0); rewrite wrap32_neg by lia; lia.
  - destruct (VirtualAddress dir =? 0); rewrite wrap32_neg by lia; lia.
  - rewrite E3. do 2 eexists. split; [reflexivity|congruence].
Qed.

Lemma bind_ext {A B : Type} (m1 m2 : M A) (k1 k2 : A -> M B) (ctx : CNG_CTX) :
  m1 ctx = m2 ctx ->
  (forall a c, m2 ctx = (Returned a, c) -> k1 a c = k2 a c) ->
  bind m1 k1 ctx = bind m2 k2 ctx.
Proof.
  intros Hm Hk. unfold bind. rewrite Hm.
  destruct (m2 ctx) as [[a| |] c]; [apply Hk; reflexivity| |]; reflexivity.
Qed.

(** With spans in order, the three reads stay clear of the bytes in which
    the two views may differ, and the two runs are the same. *)
Lemma CalculateAuthenticodeHash_try_agree (v1 v2 : FILE_VIEW_INFO)
    (dir : IMAGE_DATA_DIRECTORY) (ctx : CNG_CTX) :
  let x := ExcludeData v1 in
  ExcludeData v2 = x ->
  FileSize_LowPart v2 = FileSize_LowPart v1 ->
  length (ViewBase v1) = length (ViewBase v2) ->
  SecurityDirectory x = Some dir ->
  0 <= ChecksumOffset x ->
  ChecksumOffset x + 4 <= SecurityOffset x ->
  SecurityOffset x + 8 <= certEnd_of v1 dir ->
  certEnd_of v1 dir < 2 ^ 32 ->
  agree_outside (ViewBase v1) (ViewBase v2) x (FileSize_LowPart v1) ->
  CalculateAuthenticodeHash_try v1 ctx = CalculateAuthenticodeHash_try v2 ctx.
Proof.
  intros x Hx Hf Hlen Hdir H0 H1 H2 H3 Hag.
  unfold CalculateAuthenticodeHash_try. rewrite Hx, Hf. fold x.
  set (cs := ChecksumOffset x) in *. set (so := SecurityOffset x) in *.
  set (b1 := ViewBase v1) in *. set (b2 := ViewBase v2) in *.
  unfold CheckSum_size, sizeof_IMAGE_DATA_DIRECTORY.
  rewrite (wrap32_small (cs + 4)) by lia.
  rewrite (wrap32_small (so - (cs + 4))) by lia.
  rewrite (wrap32_small (so + 8)) by lia.
  assert (Hout : forall i : nat, (i < length b1)%nat ->
            (Z.of_nat i < cs \/ cs + 4 <= Z.of_nat i < so
             \/ so + 8 <= Z.of_nat i < certEnd_of v1 dir) ->
            nth i b1 x00 = nth i b2 x00).
  { intros i Hi Hr. apply Hag; [exact Hi|fold cs; lia|fold so; lia|].
    unfold in_cert_blob. rewrite Hdir. unfold certEnd_of in *.
    intros [Hnz Hb]. destruct (Z.eqb_spec (VirtualAddress dir) 0); lia. }
  apply bind_ext.
  { apply BCryptHashData_agree, read_span_agree; [exact Hlen|].
    intros i Hi Hr. apply Hout; [exact Hi|lia]. }
  intros st1 c1 _. destruct (NT_SUCCESS st1); [|reflexivity].
  apply bind_ext.
  { apply BCryptHashData_agree, read_span_agree; [exact Hlen|].
    intros i Hi Hr. apply Hout; [exact Hi|lia]. }
  intros st2 c2 _. destruct (NT_SUCCESS st2); [|reflexivity].
  apply bind_ext; [reflexivity|].
  intros dir' c3 Hd. unfold deref in Hd. rewrite Hdir in Hd.
  inversion Hd; subst dir' c3.
  assert (Ecb : (if VirtualAddress dir =? 0
                 then wrap32 (FileSize_LowPart v1 - (so + 8))
                 else wrap32 (VirtualAddress dir - (so + 8)))
                = certEnd_of v1 dir - (so + 8)).
  { unfold certEnd_of in *.
    destruct (VirtualAddress dir =? 0); apply wrap32_small; lia. }
  rewrite Ecb.
  apply bind_ext; [|reflexivity].
  apply BCryptHashData_agree, read_span_agree; [exact Hlen|].
  intros i Hi Hr. apply Hout; [exact Hi|lia].
Qed.

(** C2.  Two views of the same length, shorter than 4 GiB, with the same
    file size and the same exclusion descriptor, whose bytes agree outside
    the checksum field, the security directory entry and (when the
    directory has a virtual address) the certificate blob
    [virtualAddress, fileSize), make CalculateAuthenticodeHash return the
    same result and leave the same digest, whatever the provider answers. *)
Theorem CalculateAuthenticodeHash_signature_invariance
    (v1 v2 : FILE_VIEW_INFO) (ctx : CNG_CTX) :
  let x := ExcludeData v1 in
  ExcludeData v2 = x ->
  FileSize_LowPart v2 = FileSize_LowPart v1 ->
  length (ViewBase v1) = length (ViewBase v2) ->
  Z.of_nat (length (ViewBase v1)) + 16 <= 2 ^ 32 ->
  u32 (ChecksumOffset x) -> u32 (SecurityOffset x) ->
  u32 (FileSize_LowPart v1) ->
  (forall dir, SecurityDirectory x = Some dir -> u32 (VirtualAddress dir)) ->
  agree_outside (ViewBase v1) (ViewBase v2) x (FileSize_LowPart v1) ->
  fst (fst (CalculateAuthenticodeHash v1 ctx))
  = fst (fst (CalculateAuthenticodeHash v2 ctx))
  /\ Hash (snd (CalculateAuthenticodeHash v1 ctx))
     = Hash (snd (CalculateAuthenticodeHash v2 ctx)).
Proof.
  intros x Hx Hf Hlen Hsmall Hcs Hso Hfsz Hva Hag.
  assert (Hwf : (exists dir, SecurityDirectory x = Some dir
                   /\ ChecksumOffset x + 4 <= SecurityOffset x
                   /\ SecurityOffset x + 8 <= certEnd_of v1 dir)
                \/ (forall dir, SecurityDirectory x = Some dir ->
                      ~ (ChecksumOffset x + 4 <= SecurityOffset x
                         /\ SecurityOffset x + 8 <= certEnd_of v1 dir))).
  { destruct (SecurityDirectory x) as [dir|]; [|right; intros d Hd; discriminate].
    destruct (Z_le_gt_dec (ChecksumOffset x + 4) (SecurityOffset x)) as [A|A];
      [|right; intros d Hd; inversion Hd; subst d; lia].
    destruct (Z_le_gt_dec (SecurityOffset x + 8) (certEnd_of v1 dir)) as [B|B];
      [|right; intros d Hd; inversion Hd; subst d; lia].
    left. exists dir. auto. }
  destruct Hwf as [(dir & Hdir & A & B) | Hill].
  - assert (Hce : certEnd_of v1 dir < 2 ^ 32).
    { unfold certEnd_of. specialize (Hva dir Hdir). unfold u32 in *.
      destruct (VirtualAddress dir =? 0); lia. }
    unfold CalculateAuthenticodeHash, try_except.
    rewrite (CalculateAuthenticodeHash_try_agree v1 v2 dir ctx Hx Hf Hlen Hdir
               (proj1 Hcs) A B Hce Hag).
    destruct (CalculateAuthenticodeHash_try v2 ctx) as [[b| |] c]; auto.
  - destruct (CalculateAuthenticodeHash_ill_formed v1 ctx Hcs Hso Hfsz Hva
                Hsmall Hill) as (v1' & c1 & E1 & H1).
    assert (Hill2 : forall dir, SecurityDirectory (ExcludeData v2) = Some dir ->
              ~ (ChecksumOffset (ExcludeData v2) + 4
                   <= SecurityOffset (ExcludeData v2)
                 /\ SecurityOffset (ExcludeData v2) + 8 <= certEnd_of v2 dir)).
    { rewrite Hx. intros d Hd. unfold certEnd_of. rewrite Hf.
      exact (Hill d Hd). }
    assert (R2 : exists v2' c2,
               CalculateAuthenticodeHash v2 ctx = (Returned FALSE, v2', c2)
               /\ Hash c2 = Hash ctx).
    { apply CalculateAuthenticodeHash_ill_formed;
        rewrite ?Hx, ?Hf, <- ?Hlen; auto. rewrite <- Hx. exact Hill2. }
    destruct R2 as (v2' & c2 & E2 & H2).
    rewrite E1, E2. simpl. split; [reflexivity|congruence].
Qed.

Lemma CalculateAuthenticodeHash_signature_invariance_witness :
  fst (fst (CalculateAuthenticodeHash view_before fresh_ctx))
  = fst (fst (CalculateAuthenticodeHash view_after fresh_ctx))
  /\ Hash (snd (CalculateAuthenticodeHash view_before fresh_ctx))
     = Hash (snd (CalculateAuthenticodeHash view_after fresh_ctx)).
Proof.
  apply (CalculateAuthenticodeHash_signature_invariance
           view_before view_after fresh_ctx).
  - reflexivity.
  - reflexivity.
  - reflexivity.
  - simpl. lia.
  - unfold u32. simpl. lia.
  - unfold u32. simpl. lia.
  - unfold u32. simpl. lia.
  - intros dir Hd. inversion Hd. unfold u32. simpl. lia.
  - intros i Hi H1 H2 H3. simpl in Hi.
    unfold in_cert_blob in H3. simpl in H1, H2, H3.
    do 24 (destruct i as [|i];
           [first [reflexivity | exfalso; lia
                  | exfalso; apply H3; split; lia] |]).
    lia.
Defined.

(** ** CalculateFirstPageHash: which bytes of the image are touched *)

Lemma extends_refl (P : event -> Prop) (ctx : CNG_CTX) :
  extends_with P ctx ctx.
Proof. exists []. rewrite app_nil_r. auto. Qed.

Lemma extends_trans (P : event -> Prop) (c1 c2 c3 : CNG_CTX) :
  extends_with P c1 c2 -> extends_with P c2 c3 -> extends_with P c1 c3.
Proof.
  intros (n1 & E1 & F1) (n2 & E2 & F2). exists (n1 ++ n2).
  rewrite E2, E1, app_assoc. split; [reflexivity|].
  apply Forall_app. auto.
Qed.

Lemma bind_extends {A B : Type} (P : event -> Prop) (m : M A) (k : A -> M B)
    (ctx : CNG_CTX) :
  extends_with P ctx (snd (m ctx)) ->
  (forall a c, extends_with P c (snd (k a c))) ->
  extends_with P ctx (snd (bind m k ctx)).
Proof.
  intros Hm Hk. unfold bind.
  destruct (m ctx) as [[a| |] c]; simpl in *; [|exact Hm|exact Hm].
  apply (extends_trans P ctx c); [exact Hm|apply Hk].
Qed.

Lemma read_span_length (mem : list byte) (off cb : Z) (data : list byte) :
  0 <= cb -> read_span mem off cb = Some data ->
  Z.of_nat (length data) <= cb.
Proof.
  intros Hcb. unfold read_span.
  destruct (cb =? 0); [intros E; inversion E; simpl; lia|].
  destruct ((0 <=? off) && (off + cb <=? Z.of_nat (length mem)));
    [|discriminate].
  intros E. inversion E. rewrite length_firstn. lia.
Qed.

Lemma BCryptHashData_extends (bound : Z) (src : region) (mem : list byte)
    (off cb : Z) (ctx : CNG_CTX) :
  0 <= cb -> (src = Image -> off + cb <= bound) ->
  extends_with (image_access_below bound) ctx
               (snd (BCryptHashData src mem off cb ctx)).
Proof.
  intros Hcb Hb. unfold BCryptHashData.
  destruct (read_span mem off cb) as [data|] eqn:E; simpl.
  - eexists. split; [reflexivity|]. constructor; [|constructor].
    destruct src; simpl; [|exact I].
    pose proof (read_span_length mem off cb data Hcb E).
    specialize (Hb eq_refl). lia.
  - eexists. split; [reflexivity|]. constructor; [|constructor].
    destruct src; simpl; [|exact I]. apply Hb. reflexivity.
Qed.

Lemma chunk_events_no_image (bound : Z) (n : nat) (script : list NTSTATUS) :
  Forall (image_access_below bound) (chunk_events n script).
Proof.
  revert script. induction n as [|n IH]; intros script; simpl.
  - constructor.
  - constructor; [exact I|apply IH].
Qed.

Lemma pad_events_no_image (bound count : Z) (script : list NTSTATUS) :
  Forall (image_access_below bound) (pad_events count script).
Proof.
  unfold pad_events. apply Forall_app. split.
  - apply chunk_events_no_image.
  - destruct (count mod 8 =? 0); repeat constructor.
Qed.

Lemma HashpAddPad_extends (bound count : Z) (ctx : CNG_CTX) :
  u32 count ->
  extends_with (image_access_below bound) ctx (snd (HashpAddPad count ctx)).
Proof.
  intros Hc. rewrite HashpAddPad_eq by exact Hc. simpl.
  exists (pad_events count (Script ctx)). split.
  - apply pad_final_Events.
  - apply pad_events_no_image.
Qed.

Lemma BCryptFinishHash_extends (bound : Z) (ctx : CNG_CTX) :
  extends_with (image_access_below bound) ctx (snd (BCryptFinishHash ctx)).
Proof.
  unfold BCryptFinishHash. simpl. eexists. split; [reflexivity|].
  repeat constructor.
Qed.

Lemma FirstPage_while_extends (fuel : nat) (PageSize : Z)
    (v : FILE_VIEW_INFO) (soh offset : Z) (ctx : CNG_CTX) :
  extends_with (image_access_below soh) ctx
               (snd (FirstPage_while fuel PageSize v soh offset ctx)).
Proof.
  revert offset ctx. induction fuel as [|fuel IH]; intros offset ctx.
  - apply extends_refl.
  - cbn [FirstPage_while].
    destruct (offset <? PageSize); [|apply extends_refl].
    match goal with
    | |- context [if ?o >=? soh then _ else _] => set (offset1 := o)
    end.
    destruct (Z.geb_spec offset1 soh) as [Hge|Hlt]; [apply extends_refl|].
    apply bind_extends.
    + apply BCryptHashData_extends; [lia|intros _; lia].
    + intros st c. destruct (negb (NT_SUCCESS st)); [apply extends_refl|].
      apply IH.
Qed.

(** C5.  Whatever the page size, the view, the descriptor, the answers of
    the provider and the number of iterations allowed, every call that
    CalculateFirstPageHash makes on bytes of the image, completed or
    faulting, covers offsets strictly below HashpGetSizeOfHeaders: no byte
    at an offset at or beyond sizeOfHeaders is read. *)
Theorem CalculateFirstPageHash_reads_headers_only (fuel : nat)
    (PageSize : Z) (v : FILE_VIEW_INFO) (ctx : CNG_CTX) :
  exists new,
    Events (snd (CalculateFirstPageHash fuel PageSize v ctx))
    = Events ctx ++ new
    /\ Forall (image_access_below (HashpGetSizeOfHeaders (NtHeaders v))) new.
Proof.
  set (soh := HashpGetSizeOfHeaders (NtHeaders v)).
  assert (H : extends_with (image_access_below soh) ctx
                (snd (CalculateFirstPageHash_try fuel PageSize v ctx))).
  { unfold CalculateFirstPageHash_try. fold soh.
    apply bind_extends; [apply FirstPage_while_extends|].
    intros [offset|b] c; [|apply extends_refl].
    apply bind_extends.
    - destruct (offset <? PageSize); [|apply extends_refl].
      apply bind_extends; [|intros; apply extends_refl].
      apply HashpAddPad_extends. apply wrap32_range.
    - intros padded c'. destruct (negb padded); [apply extends_refl|].
      apply bind_extends; [|intros; apply extends_refl].
      apply BCryptFinishHash_extends. }
  unfold CalculateFirstPageHash, try_except.
  destruct (CalculateFirstPageHash_try fuel PageSize v ctx) as [[b| |] c];
    exact H.
Qed.

(** ** CalculateFirstPageHash: the walk *)

Lemma page_walk_deterministic (PageSize cs so soh : Z) (img : list byte)
    (o : Z) (e1 e2 : list event) (o1 o2 : Z) :
  page_walk PageSize cs so soh img o e1 o1 ->
  page_walk PageSize cs so soh img o e2 o2 ->
  e1 = e2 /\ o1 = o2.
Proof.
  intros W1. revert e2 o2.
  induction W1 as [o H | o H1 H2 | o b evs o' H1 H2 H3 W IH];
    intros e2 o2 W2; inversion W2; subst; try lia; auto.
  match goal with
  | Ha : nth_error img _ = Some b, Hb : nth_error img _ = Some _ |- _ =>
      rewrite Ha in Hb; inversion Hb; subst
  end.
  match goal with
  | Hw : page_walk _ _ _ _ _ _ _ _ |- _ => destruct (IH _ _ Hw) as [-> ->]
  end.
  auto.
Qed.

Lemma read_span_byte (mem : list byte) (o : Z) :
  0 <= o < Z.of_nat (length mem) ->
  exists b, nth_error mem (Z.to_nat o) = Some b
            /\ read_span mem o 1 = Some [b].
Proof.
  intros Ho.
  assert (Hn : (Z.to_nat o < length mem)%nat) by lia.
  exists (nth (Z.to_nat o) mem x00). split.
  - apply nth_error_nth'. exact Hn.
  - unfold read_span. simpl (1 =? 0).
    assert (E : (0 <=? o) && (o + 1 <=? Z.of_nat (length mem)) = true).
    { apply andb_true_intro. split; apply Z.leb_le; lia. }
    rewrite E. f_equal. change (Z.to_nat 1) with 1%nat.
    apply (nth_ext _ _ x00 x00).
    + rewrite length_firstn, length_skipn. cbn [length]. lia.
    + intros n Hlt. rewrite length_firstn, length_skipn in Hlt.
      assert (n = 0%nat) by lia. subst n.
      rewrite nth_firstn, nth_skipn. cbn [Nat.ltb Nat.leb nth].
      f_equal. lia.
Qed.

Lemma FirstPage_while_ok (PageSize : Z) (v : FILE_VIEW_INFO) (soh : Z)
    (alg : list byte -> list byte) (h : list byte) :
  PageSize + 8 < 2 ^ 32 ->
  soh <= Z.of_nat (length (ViewBase v)) ->
  forall (fuel : nat) (offset : Z) (evs : list event),
    0 <= offset ->
    (Z.to_nat (PageSize - offset) < fuel)%nat ->
    exists new o',
      page_walk PageSize (ChecksumOffset (ExcludeData v))
                (SecurityOffset (ExcludeData v)) soh (ViewBase v)
                offset new o'
      /\ FirstPage_while fuel PageSize v soh offset (mkCNG_CTX alg evs [] h)
         = (Returned (LoopExit o'), mkCNG_CTX alg (evs ++ new) [] h)
      /\ offset <= o'.
Proof.
  intros Hps Hsoh. induction fuel as [|fuel IH]; intros offset evs H0 Hf;
    [lia|].
  cbn [FirstPage_while].
  destruct (Z.ltb_spec offset PageSize) as [Hlt|Hge].
  - set (cs := ChecksumOffset (ExcludeData v)).
    set (so := SecurityOffset (ExcludeData v)).
    assert (E1 : (if offset =? cs then wrap32 (offset + CheckSum_size)
                  else if offset =? so
                  then wrap32 (offset + sizeof_IMAGE_DATA_DIRECTORY)
                  else offset) = skip_fields cs so offset).
    { unfold skip_fields, CheckSum_size, sizeof_IMAGE_DATA_DIRECTORY.
      destruct (offset =? cs); [apply wrap32_small; lia|].
      destruct (offset =? so); [apply wrap32_small; lia|reflexivity]. }
    rewrite E1.
    assert (Hsk : offset <= skip_fields cs so offset <= offset + 8).
    { unfold skip_fields. destruct (offset =? cs); [lia|].
      destruct (offset =? so); lia. }
    destruct (Z.geb_spec (skip_fields cs so offset) soh) as [Hstop|Hgo].
    + exists [], (skip_fields cs so offset). rewrite app_nil_r.
      split; [apply walk_stop; lia|]. split; [reflexivity|lia].
    + destruct (read_span_byte (ViewBase v) (skip_fields cs so offset))
        as (b & Hb & Hr); [lia|].
      assert (Hcall : BCryptHashData Image (ViewBase v)
                        (skip_fields cs so offset) 1 (mkCNG_CTX alg evs [] h)
                      = (Returned STATUS_SUCCESS,
                         mkCNG_CTX alg
                           (evs ++ [EvHashData Image (skip_fields cs so offset)
                                               [b] STATUS_SUCCESS]) [] h)).
      { unfold BCryptHashData. rewrite Hr. reflexivity. }
      unfold bind. rewrite Hcall.
      change (negb (NT_SUCCESS STATUS_SUCCESS)) with false. cbv iota.
      rewrite (wrap32_small (skip_fields cs so offset + 1)) by lia.
      destruct (IH (skip_fields cs so offset + 1)
                   (evs ++ [EvHashData Image (skip_fields cs so offset) [b]
                                       STATUS_SUCCESS]))
        as (new & o' & W & E & Ho); [lia|lia|].
      exists (EvHashData Image (skip_fields cs so offset) [b] STATUS_SUCCESS
              :: new), o'.
      split; [apply walk_byte; assumption|].
      split; [|lia].
      rewrite E, <- app_assoc. reflexivity.
  - exists [], offset. rewrite app_nil_r.
    split; [apply walk_end; lia|]. split; [reflexivity|lia].
Qed.

Lemma absorbed_pad_events (n : Z) :
  0 <= n -> absorbed (pad_events n []) = repeat x00 (Z.to_nat n).
Proof.
  intros Hn. rewrite <- (pad_events_bytes n []) by exact Hn.
  unfold pad_events, fed_bytes. rewrite absorbed_app, flat_map_app.
  f_equal.
  - induction (Z.to_nat (n / 8)) as [|k IH]; [reflexivity|].
    simpl. rewrite IH. reflexivity.
  - rewrite skipn_nil. destruct (n mod 8 =? 0); reflexivity.
Qed.




(** C10.  For an optional header magic that is neither the 32-bit nor the
    64-bit one, HashpGetSizeOfHeaders is 0, and CalculateFirstPageHash,
    with a provider that accepts every call and at least one iteration
    allowed, returns TRUE: the loop is left before any byte of the image is
    hashed, the only data calls feed zero bytes from the pad buffer, at
    most [PageSize] and at least [PageSize - 8] of them, and the digest is
    the one of these zero bytes. *)
Theorem CalculateFirstPageHash_unknown_magic (fuel : nat) (PageSize : Z)
    (v : FILE_VIEW_INFO) (ctx : CNG_CTX) :
  let n := unknown_magic_pad PageSize (ChecksumOffset (ExcludeData v))
                             (SecurityOffset (ExcludeData v)) in
  Magic (NtHeaders v) <> IMAGE_NT_OPTIONAL_HDR32_MAGIC ->
  Magic (NtHeaders v) <> IMAGE_NT_OPTIONAL_HDR64_MAGIC ->
  u32 PageSize ->
  Script ctx = [] ->
  (0 < fuel)%nat ->
  HashpGetSizeOfHeaders (NtHeaders v) = 0
  /\ PageSize - 8 <= n <= PageSize
  /\ exists ctx',
       CalculateFirstPageHash fuel PageSize v ctx = (Returned TRUE, v, ctx')
       /\ Events ctx'
          = Events ctx ++ pad_events n [] ++ [EvFinish STATUS_SUCCESS]
       /\ map call_of (pad_events n []) = pad_calls n
       /\ fed_bytes (pad_events n []) = repeat x00 (Z.to_nat n)
       /\ Hash ctx'
          = AlgHandle ctx (absorbed (Events ctx) ++ repeat x00 (Z.to_nat n)).
Proof.
  intros n H32 H64 [Hp0 Hp1] Hs Hfuel.
  assert (Hsoh : HashpGetSizeOfHeaders (NtHeaders v) = 0).
  { unfold HashpGetSizeOfHeaders.
    destruct (Z.eqb_spec (Magic (NtHeaders v)) IMAGE_NT_OPTIONAL_HDR64_MAGIC);
      [contradiction|].
    destruct (Z.eqb_spec (Magic (NtHeaders v)) IMAGE_NT_OPTIONAL_HDR32_MAGIC);
      [contradiction|reflexivity]. }
  set (cs := ChecksumOffset (ExcludeData v)) in *.
  set (so := SecurityOffset (ExcludeData v)) in *.
  assert (Hsk : 0 <= skip_fields cs so 0 <= 8).
  { unfold skip_fields. destruct (0 =? cs); [lia|]. destruct (0 =? so); lia. }
  assert (Hn : PageSize - 8 <= n <= PageSize /\ 0 <= n).
  { unfold n, unknown_magic_pad.
    destruct (Z.ltb_spec 0 PageSize);
      [destruct (Z.ltb_spec (skip_fields cs so 0) PageSize)|
       destruct (Z.ltb_spec 0 PageSize)]; lia. }
  split; [exact Hsoh|]. split; [apply Hn|].
  destruct ctx as [alg evs sc h]. simpl in Hs. subst sc.
  assert (Hloop : FirstPage_while fuel PageSize v 0 0 (mkCNG_CTX alg evs [] h)
                  = (Returned (LoopExit (if 0 <? PageSize
                                         then skip_fields cs so 0 else 0)),
                     mkCNG_CTX alg evs [] h)).
  { destruct fuel as [|fuel]; [lia|]. cbn [FirstPage_while].
    destruct (0 <? PageSize); [|reflexivity].
    fold cs so. unfold skip_fields in *.
    unfold CheckSum_size, sizeof_IMAGE_DATA_DIRECTORY.
    destruct (0 =? cs); [reflexivity|]. destruct (0 =? so); reflexivity. }
  assert (Hrun : CalculateFirstPageHash fuel PageSize v (mkCNG_CTX alg evs [] h)
                 = (Returned TRUE, v,
                    mkCNG_CTX alg (evs ++ pad_events n []
                                   ++ [EvFinish STATUS_SUCCESS]) []
                              (alg (absorbed (evs ++ pad_events n []))))).
  { unfold CalculateFirstPageHash, try_except, CalculateFirstPageHash_try.
    rewrite Hsoh. unfold bind at 1. rewrite Hloop.
    unfold n, unknown_magic_pad.
    set (o := if 0 <? PageSize then skip_fields cs so 0 else 0).
    assert (Ho : 0 <= o <= 8) by (unfold o; destruct (0 <? PageSize); lia).
    destruct (Z.ltb_spec o PageSize) as [Hlt|Hge].
    - unfold bind at 1. unfold bind at 1.
      rewrite wrap32_small by lia.
      rewrite HashpAddPad_ok by (unfold u32; lia).
      unfold ret, bind, BCryptFinishHash. simpl.
      rewrite <- !app_assoc. reflexivity.
    - unfold ret, bind, BCryptFinishHash. simpl.
      rewrite app_nil_r. reflexivity. }
  eexists. split; [exact Hrun|]. simpl.
  split; [reflexivity|]. split; [apply pad_events_calls|].
  split; [apply pad_events_bytes; lia|].
  rewrite absorbed_app, absorbed_pad_events by lia. reflexivity.
Qed.

Lemma CalculateFirstPageHash_unknown_magic_witness :
  HashpGetSizeOfHeaders (NtHeaders rom_view) = 0
  /\ exists ctx',
       CalculateFirstPageHash 1 16 rom_view fresh_ctx
       = (Returned TRUE, rom_view, ctx')
       /\ Events ctx'
          = [EvHashData PadBuffer 0 (repeat x00 8) STATUS_SUCCESS;
             EvHashData PadBuffer 0 (repeat x00 4) STATUS_SUCCESS;
             EvFinish STATUS_SUCCESS].
Proof.
  destruct (CalculateFirstPageHash_unknown_magic 1 16 rom_view fresh_ctx)
    as (Hsoh & _ & ctx' & Hrun & Hev & _).
  - vm_compute. discriminate.
  - vm_compute. discriminate.
  - unfold u32. lia.
  - reflexivity.
  - lia.
  - split; [exact Hsoh|]. exists ctx'. split; [exact Hrun|].
    rewrite Hev. vm_compute. reflexivity.
Defined.

(* ================================================================== *)
(** * Further properties of the routines *)

(** ** HashpAddPad: status and composition *)

Lemma hd_skipn_nth {A : Type} (d : A) (n : nat) (l : list A) :
  hd d (skipn n l) = nth n l d.
Proof.
  revert l. induction n as [|n IH]; intros [|a l]; simpl; auto.
Qed.

Lemma tl_skipn {A : Type} (n : nat) (l : list A) :
  tl (skipn n l) = skipn (S n) l.
Proof.
  revert l. induction n as [|n IH]; intros [|a l]; simpl; auto.
Qed.

Lemma feed_chunks_add (n m : nat) (ctx : CNG_CTX) :
  feed_chunks (n + m) ctx = feed_chunks m (feed_chunks n ctx).
Proof.
  revert ctx. induction n as [|n IH]; intros ctx; [reflexivity|].
  simpl. apply IH.
Qed.

Lemma pad_final_fields (count : Z) (ctx : CNG_CTX) :
  let k := pad_chunk_count count in
  Script (pad_final count ctx) = skipn k (Script ctx)
  /\ AlgHandle (pad_final count ctx) = AlgHandle ctx
  /\ Hash (pad_final count ctx) = Hash ctx.
Proof.
  unfold pad_final, pad_chunk_count.
  destruct (feed_chunks_fields (Z.to_nat (count / 8)) ctx) as (_ & S' & A & H).
  destruct (count mod 8 =? 0); simpl.
  - rewrite Nat.add_0_r. auto.
  - rewrite S', A, H, Nat.add_1_r, tl_skipn. auto.
Qed.

(** X1.  For every ULONG [count], HashpAddPad(count) returns (it never
    raises) the status the provider gave to the last chunk it fed, whatever
    was answered to the chunks before, and STATUS_SUCCESS when [count] is
    0; it consumes one answer of the provider per chunk and leaves the
    digest buffer alone. *)
Theorem HashpAddPad_returns_last_status (count : Z) (ctx : CNG_CTX) :
  u32 count ->
  let k := pad_chunk_count count in
  exists ctx',
    HashpAddPad count ctx
    = (Returned (if count =? 0 then STATUS_SUCCESS
                 else nth (k - 1) (Script ctx) STATUS_SUCCESS), ctx')
    /\ length (pad_events count (Script ctx)) = k
    /\ Events ctx' = Events ctx ++ pad_events count (Script ctx)
    /\ Script ctx' = skipn k (Script ctx)
    /\ Hash ctx' = Hash ctx.
Proof.
  intros Hc k. exists (pad_final count ctx).
  destruct (pad_final_fields count ctx) as (S' & _ & H).
  assert (Hm : 0 <= count mod 8 < 8) by (apply Z.mod_pos_bound; lia).
  pose proof (Z.div_mod count 8 ltac:(lia)) as Hd.
  destruct Hc as [H0 H1].
  assert (Hq : 0 <= count / 8) by (apply Z.div_pos; lia).
  split.
  - rewrite HashpAddPad_eq by (unfold u32; lia). f_equal. f_equal.
    unfold pad_status, next_status, k, pad_chunk_count.
    destruct (Z.eqb_spec (count mod 8) 0) as [Ez|Enz].
    + destruct (Z.ltb_spec count 8) as [Hlt|Hge].
      * destruct (Z.eqb_spec count 0) as [_|C]; [reflexivity|lia].
      * destruct (Z.eqb_spec count 0) as [C|_]; [lia|].
        destruct (feed_chunks_fields (Z.to_nat (count / 8) - 1) ctx)
          as (_ & Sc & _ & _).
        rewrite Sc, hd_skipn_nth. f_equal. lia.
    + destruct (Z.eqb_spec count 0) as [C|_]; [subst count; simpl in Enz; lia|].
      destruct (feed_chunks_fields (Z.to_nat (count / 8)) ctx)
        as (_ & Sc & _ & _).
      rewrite Sc, hd_skipn_nth. f_equal. lia.
  - split; [|split; [apply pad_final_Events|split; [exact S'|exact H]]].
    unfold pad_events, k, pad_chunk_count. rewrite length_app.
    assert (L : forall n s, length (chunk_events n s) = n).
    { induction n as [|n IH]; intros s; simpl; [reflexivity|].
      rewrite IH. reflexivity. }
    rewrite L. destruct (count mod 8 =? 0); reflexivity.
Qed.

Lemma HashpAddPad_returns_last_status_witness :
  exists ctx',
    HashpAddPad 20 (mkCNG_CTX (fun s => s) []
                      [STATUS_UNSUCCESSFUL; STATUS_SUCCESS; STATUS_UNSUCCESSFUL;
                       STATUS_SUCCESS] [])
    = (Returned STATUS_UNSUCCESSFUL, ctx')
    /\ Script ctx' = [STATUS_SUCCESS].
Proof.
  destruct (HashpAddPad_returns_last_status 20
              (mkCNG_CTX (fun s => s) []
                 [STATUS_UNSUCCESSFUL; STATUS_SUCCESS; STATUS_UNSUCCESSFUL;
                  STATUS_SUCCESS] []))
    as (ctx' & Hrun & _ & _ & Hs & _).
  - unfold u32. lia.
  - exists ctx'. split; [exact Hrun|exact Hs].
Defined.

(** X2.  Padding composes on chunk boundaries: after a padding of [a]
    bytes, [a] a multiple of 8, a padding of [b] bytes leaves the hash
    context exactly as one padding of [a + b] bytes does. *)
Theorem HashpAddPad_aligned_compose (a b : Z) (ctx : CNG_CTX) :
  0 <= a -> 0 <= b -> a + b < 2 ^ 32 -> a mod 8 = 0 ->
  snd (HashpAddPad b (snd (HashpAddPad a ctx))) = snd (HashpAddPad (a + b) ctx).
Proof.
  intros Ha Hb Hab Hal.
  rewrite !HashpAddPad_eq by (unfold u32; lia). simpl snd.
  unfold pad_final. rewrite Hal. simpl (0 =? 0).
  pose proof (Z.div_mod a 8 ltac:(lia)) as Hd.
  assert (Ea : a = 8 * (a / 8)) by lia.
  assert (Hqa : 0 <= a / 8) by (apply Z.div_pos; lia).
  assert (Hqb : 0 <= b / 8) by (apply Z.div_pos; lia).
  assert (Em : (a + b) mod 8 = b mod 8).
  { rewrite Ea, Z.add_comm, Z.mul_comm, Z.mod_add by lia. reflexivity. }
  assert (Eq : (a + b) / 8 = a / 8 + b / 8).
  { rewrite Ea at 1. rewrite Z.add_comm, Z.mul_comm, Z.div_add by lia. lia. }
  rewrite Em, Eq, Z2Nat.inj_add, feed_chunks_add by lia.
  reflexivity.
Qed.

Lemma HashpAddPad_aligned_compose_witness :
  snd (HashpAddPad 13 (snd (HashpAddPad 16 (mkCNG_CTX (fun s => s) [] [] []))))
  = snd (HashpAddPad (16 + 13) (mkCNG_CTX (fun s => s) [] [] [])).
Proof.
  apply (HashpAddPad_aligned_compose 16 13 (mkCNG_CTX (fun s => s) [] [] []));
    [lia | lia | lia | reflexivity].
Defined.

(** ** HashpGetExcludeRange: what a verdict means *)

Lemma exclude_offsets_inv (v : FILE_VIEW_INFO) (cs so : Z)
    (dir : IMAGE_DATA_DIRECTORY) :
  exclude_offsets v = Some (cs, so, dir) ->
  dir = DataDirectory_Security (NtHeaders v)
  /\ cs = wrap32 (e_lfanew v + 88)
  /\ (Magic (NtHeaders v) = IMAGE_NT_OPTIONAL_HDR64_MAGIC
      /\ so = wrap32 (e_lfanew v + 168)
      \/ Magic (NtHeaders v) = IMAGE_NT_OPTIONAL_HDR32_MAGIC
         /\ so = wrap32 (e_lfanew v + 152)).
Proof.
  unfold exclude_offsets.
  destruct (Z.eqb_spec (Magic (NtHeaders v)) IMAGE_NT_OPTIONAL_HDR64_MAGIC).
  - intros E. inversion E. auto.
  - destruct (Z.eqb_spec (Magic (NtHeaders v)) IMAGE_NT_OPTIONAL_HDR32_MAGIC);
      [|discriminate].
    intros E. inversion E. auto.
Qed.

Lemma exclude_offsets_none (v : FILE_VIEW_INFO) :
  exclude_offsets v = None <->
  Magic (NtHeaders v) <> IMAGE_NT_OPTIONAL_HDR64_MAGIC
  /\ Magic (NtHeaders v) <> IMAGE_NT_OPTIONAL_HDR32_MAGIC.
Proof.
  unfold exclude_offsets.
  destruct (Z.eqb_spec (Magic (NtHeaders v)) IMAGE_NT_OPTIONAL_HDR64_MAGIC);
    [split; [discriminate|tauto]|].
  destruct (Z.eqb_spec (Magic (NtHeaders v)) IMAGE_NT_OPTIONAL_HDR32_MAGIC);
    [split; [discriminate|tauto]|tauto].
Qed.

(** X3.  An accepted signed image has its certificate blob inside the
    file: when HashpGetExcludeRange returns TRUE for a directory with a
    virtual address, the section table is not empty, the address is at or
    beyond the 32-bit end of the last section's raw data and below the file
    size, and [virtualAddress + size <= fileSize]. *)
Theorem HashpGetExcludeRange_signed_bounds (v v' : FILE_VIEW_INFO) :
  let nt := NtHeaders v in
  let dir := DataDirectory_Security nt in
  let last := SectionTable nt (wrap32 (NumberOfSections nt - 1)) in
  HashpGetExcludeRange v = (TRUE, v') ->
  VirtualAddress dir <> 0 ->
  0 <= VirtualAddress dir ->
  u32 (FileSize_LowPart v) ->
  NumberOfSections nt <> 0
  /\ wrap32 (PointerToRawData last + SizeOfRawData last) <= VirtualAddress dir
  /\ VirtualAddress dir < FileSize_LowPart v
  /\ VirtualAddress dir + Size dir <= FileSize_LowPart v.
Proof.
  intros nt dir last Hrun Hnz H0 Hf.
  destruct (exclude_offsets v) as [[[cs so] d]|] eqn:E.
  - destruct (exclude_offsets_inv v cs so d E) as (Ed & _).
    fold nt in Ed. fold dir in Ed. subst d.
    rewrite (HashpGetExcludeRange_checks_in_order v cs so dir E Hnz H0 Hf)
      in Hrun.
    fold nt in Hrun. fold last in Hrun.
    destruct (Z.eqb_spec (NumberOfSections nt) 0); [discriminate|].
    destruct (Z.ltb_spec (VirtualAddress dir)
                (wrap32 (PointerToRawData last + SizeOfRawData last)));
      [discriminate|].
    destruct (Z.leb_spec (FileSize_LowPart v) (VirtualAddress dir));
      [discriminate|].
    destruct (Z.ltb_spec (FileSize_LowPart v - VirtualAddress dir) (Size dir));
      [discriminate|].
    repeat split; try assumption; lia.
  - unfold HashpGetExcludeRange in Hrun. rewrite E in Hrun. discriminate.
Qed.

Lemma HashpGetExcludeRange_signed_bounds_witness :
  let v := mkView (repeat x00 64) 64 0
                  (mkNt 2 IMAGE_NT_OPTIONAL_HDR32_MAGIC 16 (mkDir 48 16)
                        (fun k => if k =? 1 then mkSection 32 16
                                  else mkSection 16 16))
                  (mkExclude 0 0 None) IMAGE_VERIFY_OK in
  NumberOfSections (NtHeaders v) <> 0
  /\ wrap32 (32 + 16) <= 48
  /\ 48 < 64
  /\ 48 + 16 <= 64.
Proof.
  cbv zeta.
  apply (HashpGetExcludeRange_signed_bounds
           (mkView (repeat x00 64) 64 0
                   (mkNt 2 IMAGE_NT_OPTIONAL_HDR32_MAGIC 16 (mkDir 48 16)
                         (fun k => if k =? 1 then mkSection 32 16
                                   else mkSection 16 16))
                   (mkExclude 0 0 None) IMAGE_VERIFY_OK)
           (mkView (repeat x00 64) 64 0
                   (mkNt 2 IMAGE_NT_OPTIONAL_HDR32_MAGIC 16 (mkDir 48 16)
                         (fun k => if k =? 1 then mkSection 32 16
                                   else mkSection 16 16))
                   (mkExclude 88 152 (Some (mkDir 48 16))) IMAGE_VERIFY_OK)).
  - reflexivity.
  - simpl. lia.
  - simpl. lia.
  - unfold u32. simpl. lia.
Defined.

(** X4.  HashpGetExcludeRange touches two fields only.  The bytes, the
    file size and the headers are never changed.  On TRUE, LastError is
    left as it was and the descriptor points to the security entry of the
    headers; on FALSE, the descriptor is left as it was and LastError is
    one of the four validation errors, the bad-magic error exactly when
    the magic is neither the 64-bit nor the 32-bit one. *)
Theorem HashpGetExcludeRange_frame (v : FILE_VIEW_INFO) :
  let r := HashpGetExcludeRange v in
  ViewBase (snd r) = ViewBase v
  /\ FileSize_LowPart (snd r) = FileSize_LowPart v
  /\ e_lfanew (snd r) = e_lfanew v
  /\ NtHeaders (snd r) = NtHeaders v
  /\ (fst r = TRUE ->
      LastError (snd r) = LastError v
      /\ SecurityDirectory (ExcludeData (snd r))
         = Some (DataDirectory_Security (NtHeaders v)))
  /\ (fst r = FALSE ->
      ExcludeData (snd r) = ExcludeData v
      /\ In (LastError (snd r))
            [IMAGE_VERIFY_BAD_OPTIONAL_HEADER_MAGIC;
             IMAGE_VERIFY_BAD_SECTION_COUNT;
             IMAGE_VERIFY_BAD_SECURITY_DIRECTORY_VA;
             IMAGE_VERIFY_BAD_SECURITY_DIRECTORY_SIZE]
      /\ (LastError (snd r) = IMAGE_VERIFY_BAD_OPTIONAL_HEADER_MAGIC <->
          Magic (NtHeaders v) <> IMAGE_NT_OPTIONAL_HDR64_MAGIC
          /\ Magic (NtHeaders v) <> IMAGE_NT_OPTIONAL_HDR32_MAGIC)).
Proof.
  cbv zeta. unfold HashpGetExcludeRange.
  destruct (exclude_offsets v) as [[[cs so] d]|] eqn:E.
  - destruct (exclude_offsets_inv v cs so d E) as (Ed & _ & Hm).
    assert (Hrec : ~ (Magic (NtHeaders v) <> IMAGE_NT_OPTIONAL_HDR64_MAGIC
                      /\ Magic (NtHeaders v) <> IMAGE_NT_OPTIONAL_HDR32_MAGIC))
      by (intros [A B]; destruct Hm as [[C _]|[C _]]; contradiction).
    destruct (if negb (VirtualAddress d =? 0)
              then check_security_directory v d else None) as [e|] eqn:F.
    + simpl. repeat split; try discriminate; auto.
      * destruct (VirtualAddress d =? 0); [discriminate|].
        simpl in F. unfold check_security_directory in F.
        repeat match type of F with
               | (if ?c then _ else _) = _ => destruct c
               | (let _ := _ in _) = _ => cbv zeta in F
               end; inversion F; simpl; auto.
      * intros Hb. subst e.
        destruct (VirtualAddress d =? 0); [discriminate|].
        simpl in F. unfold check_security_directory in F.
        repeat match type of F with
               | (if ?c then _ else _) = _ => destruct c
               | (let _ := _ in _) = _ => cbv zeta in F
               end; discriminate.
      * intros Hb. subst e.
        destruct (VirtualAddress d =? 0); [discriminate|].
        simpl in F. unfold check_security_directory in F.
        repeat match type of F with
               | (if ?c then _ else _) = _ => destruct c
               | (let _ := _ in _) = _ => cbv zeta in F
               end; discriminate.
      * intros Hb. contradiction.
    + simpl. subst d. repeat split; try discriminate; auto.
  - simpl. apply exclude_offsets_none in E.
    repeat split; try discriminate; auto; tauto.
Qed.

(** X5.  HashpGetExcludeRange is idempotent: run again on the view it
    has produced, it returns the same verdict and the same view. *)
Theorem HashpGetExcludeRange_idempotent (v : FILE_VIEW_INFO) :
  HashpGetExcludeRange (snd (HashpGetExcludeRange v)) = HashpGetExcludeRange v.
Proof.
  unfold HashpGetExcludeRange at 2 3.
  destruct (exclude_offsets v) as [[[cs so] d]|] eqn:E.
  - destruct (if negb (VirtualAddress d =? 0)
              then check_security_directory v d else None) as [e|] eqn:F;
      simpl snd.
    + unfold HashpGetExcludeRange.
      change (exclude_offsets (set_LastError v e)) with (exclude_offsets v).
      rewrite E.
      change (check_security_directory (set_LastError v e) d)
        with (check_security_directory v d).
      rewrite F. reflexivity.
    + unfold HashpGetExcludeRange.
      change (exclude_offsets (set_ExcludeData v (mkExclude cs so (Some d))))
        with (exclude_offsets v).
      rewrite E.
      change (check_security_directory
                (set_ExcludeData v (mkExclude cs so (Some d))) d)
        with (check_security_directory v d).
      rewrite F. reflexivity.
  - simpl snd. unfold HashpGetExcludeRange.
    change (exclude_offsets
              (set_LastError v IMAGE_VERIFY_BAD_OPTIONAL_HEADER_MAGIC))
      with (exclude_offsets v).
    rewrite E. reflexivity.
Qed.

(** X6.  The two offsets of a descriptor depend on the start of the NT
    headers and on the layout only: on TRUE, checksumOffset is
    [e_lfanew + 88] and securityOffset lies 80 bytes further in the 64-bit
    layout and 64 bytes further in the 32-bit layout, all modulo 2^32. *)
Theorem HashpGetExcludeRange_offsets (v v' : FILE_VIEW_INFO) :
  HashpGetExcludeRange v = (TRUE, v') ->
  ChecksumOffset (ExcludeData v') = wrap32 (e_lfanew v + 88)
  /\ SecurityOffset (ExcludeData v')
     = wrap32 (ChecksumOffset (ExcludeData v')
               + (if Magic (NtHeaders v) =? IMAGE_NT_OPTIONAL_HDR64_MAGIC
                  then 80 else 64)).
Proof.
  intros Hrun. unfold HashpGetExcludeRange in Hrun.
  destruct (exclude_offsets v) as [[[cs so] d]|] eqn:E; [|discriminate].
  destruct (exclude_offsets_inv v cs so d E) as (_ & Ecs & Hm).
  destruct (if negb (VirtualAddress d =? 0)
            then check_security_directory v d else None); [discriminate|].
  inversion Hrun. simpl. split; [exact Ecs|].
  assert (W : forall a b, wrap32 (wrap32 a + b) = wrap32 (a + b))
    by (intros a b; unfold wrap32; apply Zplus_mod_idemp_l).
  rewrite Ecs, W.
  destruct Hm as [[Hm ->]|[Hm ->]]; rewrite Hm; simpl; f_equal; lia.
Qed.

Lemma HashpGetExcludeRange_offsets_witness :
  let v := mkView (repeat x00 64) 64 128
                  (mkNt 0 IMAGE_NT_OPTIONAL_HDR32_MAGIC 16 (mkDir 0 0)
                        (fun _ => mkSection 0 0))
                  (mkExclude 0 0 None) IMAGE_VERIFY_OK in
  ChecksumOffset (ExcludeData (snd (HashpGetExcludeRange v)))
  = wrap32 (128 + 88)
  /\ SecurityOffset (ExcludeData (snd (HashpGetExcludeRange v)))
     = wrap32 (ChecksumOffset (ExcludeData (snd (HashpGetExcludeRange v)))
               + (if IMAGE_NT_OPTIONAL_HDR32_MAGIC
                     =? IMAGE_NT_OPTIONAL_HDR64_MAGIC then 80 else 64)).
Proof.
  cbv zeta.
  apply (HashpGetExcludeRange_offsets
           (mkView (repeat x00 64) 64 128
                   (mkNt 0 IMAGE_NT_OPTIONAL_HDR32_MAGIC 16 (mkDir 0 0)
                         (fun _ => mkSection 0 0))
                   (mkExclude 0 0 None) IMAGE_VERIFY_OK)).
  reflexivity.
Defined.

(** ** CalculateAuthenticodeHash: what a result means *)

Lemma BCryptHashData_shape (src : region) (mem : list byte) (off cb : Z)
    (ctx : CNG_CTX) :
  (exists c, BCryptHashData src mem off cb ctx = (Raised, c)
             /\ Events c = Events ctx ++ [EvFault src off cb]
             /\ Hash c = Hash ctx /\ AlgHandle c = AlgHandle ctx)
  \/ (exists c data,
        BCryptHashData src mem off cb ctx = (Returned (next_status ctx), c)
        /\ Events c
           = Events ctx ++ [EvHashData src off data (next_status ctx)]
        /\ Hash c = Hash ctx /\ AlgHandle c = AlgHandle ctx).
Proof.
  unfold BCryptHashData.
  destruct (read_span mem off cb) as [data|].
  - right. do 2 eexists. repeat split.
  - left. eexists. repeat split.
Qed.




(** X8.  Without a descriptor (HashpGetExcludeRange has not run, or has
    failed, and the pointer to the security directory is NULL)
    CalculateAuthenticodeHash returns FALSE whatever the view and the
    provider: it never makes the finishing call and leaves the digest
    buffer as it was. *)
Theorem CalculateAuthenticodeHash_without_descriptor (v : FILE_VIEW_INFO)
    (ctx : CNG_CTX) :
  SecurityDirectory (ExcludeData v) = None ->
  exists v' ctx' new,
    CalculateAuthenticodeHash v ctx = (Returned FALSE, v', ctx')
    /\ Events ctx' = Events ctx ++ new
    /\ existsb is_finish new = false
    /\ (length new <= 2)%nat
    /\ Hash ctx' = Hash ctx.
Proof.
  intros Hnull.
  unfold CalculateAuthenticodeHash, try_except, CalculateAuthenticodeHash_try.
  rewrite Hnull. unfold bind at 1.
  match goal with
  | |- context [BCryptHashData Image ?m ?o ?n ctx] =>
      destruct (BCryptHashData_shape Image m o n ctx)
        as [(c1 & E1 & Ev1 & Hh1 & _) | (c1 & d1 & E1 & Ev1 & Hh1 & _)];
        rewrite E1
  end.
  { do 3 eexists. split; [reflexivity|]. split; [exact Ev1|].
    repeat split; simpl; auto. }
  destruct (NT_SUCCESS (next_status ctx)).
  2:{ do 3 eexists. split; [reflexivity|]. split; [exact Ev1|].
      repeat split; simpl; auto. }
  unfold bind at 1.
  match goal with
  | |- context [BCryptHashData Image ?m ?o ?n c1] =>
      destruct (BCryptHashData_shape Image m o n c1)
        as [(c2 & E2 & Ev2 & Hh2 & _) | (c2 & d2 & E2 & Ev2 & Hh2 & _)];
        rewrite E2
  end.
  { do 3 eexists. split; [reflexivity|].
    split; [rewrite Ev2, Ev1, <- app_assoc; reflexivity|].
    repeat split; simpl; auto. congruence. }
  destruct (NT_SUCCESS (next_status c1)).
  2:{ do 3 eexists. split; [reflexivity|].
      split; [rewrite Ev2, Ev1, <- app_assoc; reflexivity|].
      repeat split; simpl; auto. congruence. }
  unfold bind at 1. unfold deref at 1.
  do 3 eexists. split; [reflexivity|].
  split; [rewrite Ev2, Ev1, <- app_assoc; reflexivity|].
  repeat split; simpl; auto. congruence.
Qed.

Lemma CalculateAuthenticodeHash_without_descriptor_witness :
  exists v' ctx' new,
    CalculateAuthenticodeHash crafted_view fresh_ctx = (Returned FALSE, v', ctx')
    /\ Events ctx' = Events fresh_ctx ++ new
    /\ existsb is_finish new = false
    /\ (length new <= 2)%nat
    /\ Hash ctx' = Hash fresh_ctx.
Proof.
  apply (CalculateAuthenticodeHash_without_descriptor crafted_view fresh_ctx).
  reflexivity.
Defined.

(** ** CalculateAuthenticodeHash: coverage and sensitivity *)

Lemma span_length (mem : list byte) (a b : Z) :
  0 <= a -> a <= b -> b <= Z.of_nat (length mem) ->
  Z.of_nat (length (span mem a b)) = b - a.
Proof.
  intros H0 Hab Hb. unfold span. rewrite length_firstn, length_skipn. lia.
Qed.

Lemma span_nth (mem : list byte) (a b : Z) (i : nat) :
  0 <= a -> a <= Z.of_nat i < b ->
  nth (i - Z.to_nat a) (span mem a b) x00 = nth i mem x00.
Proof.
  intros H0 Hi. unfold span. rewrite nth_firstn.
  assert (E : (i - Z.to_nat a <? Z.to_nat (b - a))%nat = true)
    by (apply Nat.ltb_lt; lia).
  rewrite E, nth_skipn. f_equal. lia.
Qed.

Lemma app_inj_length {A : Type} (l1 l2 r1 r2 : list A) :
  length l1 = length l2 -> l1 ++ r1 = l2 ++ r2 -> l1 = l2 /\ r1 = r2.
Proof.
  revert l2. induction l1 as [|x l1 IH]; intros [|y l2] Hl He;
    simpl in *; try discriminate; auto.
  inversion He. destruct (IH l2) as [-> ->]; auto.
Qed.

(** X9.  With spans in order inside the view and a provider that accepts
    every call, the 12 bytes of the two excluded fields are the only bytes
    before [certEnd] that are not hashed.  The run returns TRUE; the bytes
    it has fed are the bytes [0, checksumOffset), [checksumOffset + 4,
    securityOffset) and [certStart, certEnd) of the image, in this order,
    followed by [pad] zero bytes: [certEnd - 12 + pad] bytes in all.
    Every byte of the image before [certEnd] that lies outside the two
    fields stands in this stream at its offset less the excluded bytes in
    front of it ([hashed_index]), and from [certStart] on what is fed,
    padding included, is a multiple of 8 bytes long. *)
Theorem CalculateAuthenticodeHash_coverage (v : FILE_VIEW_INFO)
    (ctx : CNG_CTX) (dir : IMAGE_DATA_DIRECTORY) :
  let cs := ChecksumOffset (ExcludeData v) in
  let so := SecurityOffset (ExcludeData v) in
  let certStart := so + 8 in
  let certEnd := certEnd_of v dir in
  let pad := alignment_pad (certEnd - certStart) in
  let img := ViewBase v in
  SecurityDirectory (ExcludeData v) = Some dir ->
  0 <= cs -> cs + 4 <= so -> certStart <= certEnd ->
  certEnd <= Z.of_nat (length (ViewBase v)) -> certEnd < 2 ^ 32 ->
  Script ctx = [] ->
  exists ctx' new,
    CalculateAuthenticodeHash v ctx = (Returned TRUE, v, ctx')
    /\ Events ctx' = Events ctx ++ new
    /\ fed_bytes new
       = span img 0 cs ++ span img (cs + 4) so ++ span img certStart certEnd
         ++ repeat x00 (Z.to_nat pad)
    /\ Z.of_nat (length (fed_bytes new)) = certEnd - 12 + pad
    /\ (forall i : nat,
          Z.of_nat i < certEnd ->
          ~ (cs <= Z.of_nat i < cs + 4) ->
          ~ (so <= Z.of_nat i < so + 8) ->
          nth (hashed_index cs so i) (fed_bytes new) x00 = nth i img x00)
    /\ 0 <= pad < 8
    /\ (certEnd - certStart + pad) mod 8 = 0.
Proof.
  intros cs so certStart certEnd pad img Hdir H0 H1 H2 H3 H4 Hs.
  destruct ctx as [alg evs sc h]. simpl in Hs. subst sc.
  unfold CalculateAuthenticodeHash, try_except.
  rewrite (CalculateAuthenticodeHash_try_ok v dir alg evs h Hdir H0 H1 H2 H3 H4).
  fold cs so certStart certEnd img.
  assert (Hm : 0 <= (certEnd - certStart) mod 8 < 8)
    by (apply Z.mod_pos_bound; lia).
  assert (Hp : 0 <= pad < 8
               /\ (certEnd - certStart + pad) mod 8 = 0).
  { unfold pad, alignment_pad.
    destruct (Z.eqb_spec ((certEnd - certStart) mod 8) 0) as [E|E].
    - rewrite Z.add_0_r. split; [lia|exact E].
    - split; [lia|].
      rewrite (Z.div_mod (certEnd - certStart) 8) at 1 by lia.
      replace (8 * ((certEnd - certStart) / 8) + (certEnd - certStart) mod 8
               + (8 - (certEnd - certStart) mod 8))
        with (0 + ((certEnd - certStart) / 8 + 1) * 8) by lia.
      rewrite Z.mod_add by lia. reflexivity. }
  pose proof (span_length img 0 cs) as L1.
  pose proof (span_length img (cs + 4) so) as L2.
  pose proof (span_length img certStart certEnd) as L3.
  unfold certStart in L3. fold img in H3.
  do 2 eexists. split; [reflexivity|]. cbn [Events].
  split; [reflexivity|].
  match goal with
  | |- fed_bytes ?n = ?s /\ _ =>
      assert (Hfed : fed_bytes n = s)
  end.
  { unfold fed_bytes. rewrite !flat_map_app. cbn [flat_map fed_data].
    rewrite ?app_nil_r. unfold pad, alignment_pad. fold certStart.
    destruct ((certEnd - certStart) mod 8 =? 0);
      cbn [flat_map fed_data Z.to_nat repeat];
      rewrite ?app_nil_r, <- ?app_assoc, ?app_nil_r; reflexivity. }
  split; [exact Hfed|]. rewrite Hfed.
  split; [|split; [|exact Hp]].
  - rewrite !length_app, repeat_length. unfold certStart. lia.
  - intros i Hi Hcs Hso. unfold hashed_index, certStart.
    destruct (Z.ltb_spec (Z.of_nat i) cs) as [C1|C1];
      [|destruct (Z.ltb_spec (Z.of_nat i) so) as [C2|C2]].
    + rewrite app_nth1 by lia.
      rewrite <- (span_nth img 0 cs i) by lia. f_equal. lia.
    + rewrite app_nth2 by lia. rewrite app_nth1 by lia.
      rewrite <- (span_nth img (cs + 4) so i) by lia. f_equal. lia.
    + rewrite app_nth2 by lia. rewrite app_nth2 by lia.
      rewrite app_nth1 by lia.
      rewrite <- (span_nth img (so + 8) certEnd i) by lia. f_equal. lia.
Qed.

Lemma CalculateAuthenticodeHash_coverage_witness :
  exists ctx' new,
    CalculateAuthenticodeHash unsigned_view fresh_ctx
    = (Returned TRUE, unsigned_view, ctx')
    /\ Events ctx' = Events fresh_ctx ++ new
    /\ fed_bytes new = repeat x00 (1021 - 12 + 3)
    /\ Z.of_nat (length (fed_bytes new)) = 1021 - 12 + 3.
Proof.
  destruct (CalculateAuthenticodeHash_coverage unsigned_view fresh_ctx
              (mkDir 0 0)) as (ctx' & new & Hrun & Hev & Hfed & Hl & _).
  - reflexivity.
  - simpl. lia.
  - simpl. lia.
  - unfold certEnd_of. simpl. lia.
  - unfold certEnd_of. simpl. lia.
  - unfold certEnd_of. simpl. lia.
  - reflexivity.
  - exists ctx', new. split; [exact Hrun|]. split; [exact Hev|].
    split; [rewrite Hfed; vm_compute; reflexivity|].
    rewrite Hl. reflexivity.
Defined.

Lemma span_differs (b1 b2 : list byte) (a b : Z) (i : nat) :
  0 <= a -> a <= Z.of_nat i < b ->
  nth i b1 x00 <> nth i b2 x00 ->
  span b1 a b <> span b2 a b.
Proof.
  intros H0 Hi Hd E. apply Hd.
  rewrite <- (span_nth b1 a b i H0 Hi), <- (span_nth b2 a b i H0 Hi), E.
  reflexivity.
Qed.

Lemma absorbed_finish (evs : list event) (st : NTSTATUS) :
  absorbed (evs ++ [EvFinish st]) = absorbed evs.
Proof. rewrite absorbed_app. simpl. apply app_nil_r. Qed.

(** X10.  A change in a hashed byte reaches the hash primitive.  Two views
    of the same length with the same descriptor, spans in order inside the
    view and a provider that accepts every call: when the views differ in
    one byte of [0, checksumOffset), [checksumOffset + 4, securityOffset) or
    [certStart, certEnd), both runs return TRUE and the byte streams the
    primitive has absorbed differ, so that the digests differ for every
    algorithm that tells the two streams apart. *)
Theorem CalculateAuthenticodeHash_detects_change (v1 v2 : FILE_VIEW_INFO)
    (ctx : CNG_CTX) (dir : IMAGE_DATA_DIRECTORY) (i : nat) :
  let x := ExcludeData v1 in
  let cs := ChecksumOffset x in
  let so := SecurityOffset x in
  let certEnd := certEnd_of v1 dir in
  let r1 := CalculateAuthenticodeHash v1 ctx in
  let r2 := CalculateAuthenticodeHash v2 ctx in
  ExcludeData v2 = x ->
  FileSize_LowPart v2 = FileSize_LowPart v1 ->
  length (ViewBase v2) = length (ViewBase v1) ->
  SecurityDirectory x = Some dir ->
  0 <= cs -> cs + 4 <= so -> so + 8 <= certEnd ->
  certEnd <= Z.of_nat (length (ViewBase v1)) -> certEnd < 2 ^ 32 ->
  Script ctx = [] ->
  Z.of_nat i < cs \/ cs + 4 <= Z.of_nat i < so
  \/ so + 8 <= Z.of_nat i < certEnd ->
  nth i (ViewBase v1) x00 <> nth i (ViewBase v2) x00 ->
  fst r1 = (Returned TRUE, v1)
  /\ fst r2 = (Returned TRUE, v2)
  /\ absorbed (Events (snd r1)) <> absorbed (Events (snd r2))
  /\ ((forall s t, AlgHandle ctx s = AlgHandle ctx t -> s = t) ->
      Hash (snd r1) <> Hash (snd r2)).
Proof.
  intros x cs so certEnd r1 r2 Hx Hf Hlen Hdir H0 H1 H2 H3 H4 Hs Hi Hd.
  destruct ctx as [alg evs sc h]. simpl in Hs. subst sc.
  assert (Hdir2 : SecurityDirectory (ExcludeData v2) = Some dir)
    by (rewrite Hx; exact Hdir).
  assert (Hce : certEnd_of v2 dir = certEnd)
    by (unfold certEnd, certEnd_of; rewrite Hf; reflexivity).
  pose proof (CalculateAuthenticodeHash_try_ok v1 dir alg evs h Hdir H0 H1 H2
                H3 H4) as E1.
  pose proof (CalculateAuthenticodeHash_try_ok v2 dir alg evs h Hdir2) as E2.
  rewrite Hx, Hce, Hlen in E2. specialize (E2 H0 H1 H2 H3 H4).
  fold x in E1. fold cs so certEnd in E1, E2. cbv zeta in E1, E2.
  unfold r1, r2, CalculateAuthenticodeHash, try_except.
  rewrite E1, E2. cbn [fst snd Events Hash AlgHandle].
  set (b1 := ViewBase v1) in *. set (b2 := ViewBase v2) in *.
  set (tail := if (certEnd - (so + 8)) mod 8 =? 0 then []
               else [EvHashData PadBuffer 0
                       (repeat x00 (Z.to_nat (8 - (certEnd - (so + 8)) mod 8)))
                       STATUS_SUCCESS]) in *.
  assert (Hstreams :
            forall b, absorbed
              ([EvHashData Image 0 (span b 0 cs) STATUS_SUCCESS;
                EvHashData Image (cs + 4) (span b (cs + 4) so) STATUS_SUCCESS;
                EvHashData Image (so + 8) (span b (so + 8) certEnd)
                           STATUS_SUCCESS] ++ tail)
            = span b 0 cs ++ span b (cs + 4) so ++ span b (so + 8) certEnd
              ++ absorbed tail).
  { intros b. cbn [app absorbed].
    change (NT_SUCCESS STATUS_SUCCESS) with true. cbv iota.
    rewrite <- ?app_assoc. reflexivity. }
  assert (Hne : absorbed
              ([EvHashData Image 0 (span b1 0 cs) STATUS_SUCCESS;
                EvHashData Image (cs + 4) (span b1 (cs + 4) so) STATUS_SUCCESS;
                EvHashData Image (so + 8) (span b1 (so + 8) certEnd)
                           STATUS_SUCCESS] ++ tail)
            <> absorbed
              ([EvHashData Image 0 (span b2 0 cs) STATUS_SUCCESS;
                EvHashData Image (cs + 4) (span b2 (cs + 4) so) STATUS_SUCCESS;
                EvHashData Image (so + 8) (span b2 (so + 8) certEnd)
                           STATUS_SUCCESS] ++ tail)).
  { rewrite !Hstreams. intros E.
    assert (L : forall a b, 0 <= a -> a <= b -> b <= Z.of_nat (length b1) ->
                length (span b1 a b) = length (span b2 a b)).
    { intros a b Ha Hab Hb.
      apply Nat2Z.inj. rewrite (span_length b1 a b Ha Hab Hb).
      rewrite (span_length b2 a b Ha Hab); [reflexivity|].
      rewrite Hlen. exact Hb. }
    apply app_inj_length in E; [|apply L; lia]. destruct E as [S1 E].
    apply app_inj_length in E; [|apply L; lia]. destruct E as [S2 E].
    apply app_inj_length in E; [|apply L; lia]. destruct E as [S3 _].
    destruct Hi as [Hi | [Hi | Hi]].
    - apply (span_differs b1 b2 0 cs i); [lia | lia | exact Hd | exact S1].
    - apply (span_differs b1 b2 (cs + 4) so i);
        [lia | lia | exact Hd | exact S2].
    - apply (span_differs b1 b2 (so + 8) certEnd i);
        [lia | lia | exact Hd | exact S3]. }
  split; [reflexivity|]. split; [reflexivity|].
  split.
  - rewrite !app_assoc, !absorbed_finish, <- !app_assoc, !absorbed_app.
    intros E. apply app_inv_head in E. apply Hne.
    rewrite !absorbed_app. exact E.
  - intros Hinj E. apply Hinj in E. rewrite !absorbed_app in E.
    apply app_inv_head in E. apply Hne. rewrite !absorbed_app. exact E.
Qed.

Lemma CalculateAuthenticodeHash_detects_change_witness :
  let v2 := mkView (repeat x00 1020 ++ [x01]) 1021 64 (NtHeaders unsigned_view)
                   (ExcludeData unsigned_view) IMAGE_VERIFY_OK in
  Hash (snd (CalculateAuthenticodeHash unsigned_view fresh_ctx))
  <> Hash (snd (CalculateAuthenticodeHash v2 fresh_ctx)).
Proof.
  cbv zeta.
  refine (proj2 (proj2 (proj2
    (CalculateAuthenticodeHash_detects_change unsigned_view
       (mkView (repeat x00 1020 ++ [x01]) 1021 64 (NtHeaders unsigned_view)
               (ExcludeData unsigned_view) IMAGE_VERIFY_OK)
       fresh_ctx (mkDir 0 0) 1020 _ _ _ _ _ _ _ _ _ _ _ _))) _).
  - reflexivity.
  - reflexivity.
  - vm_compute. reflexivity.
  - reflexivity.
  - simpl. lia.
  - simpl. lia.
  - unfold certEnd_of. simpl. lia.
  - unfold certEnd_of. simpl. lia.
  - unfold certEnd_of. simpl. lia.
  - reflexivity.
  - right. right. unfold certEnd_of. simpl. lia.
  - vm_compute. discriminate.
  - intros s t E. exact E.
Defined.

(** ** From the descriptor to the digest *)

Lemma HashpGetExcludeRange_true_inv (v v' : FILE_VIEW_INFO) :
  HashpGetExcludeRange v = (TRUE, v') ->
  let dir := DataDirectory_Security (NtHeaders v) in
  exists cs so,
    exclude_offsets v = Some (cs, so, dir)
    /\ v' = set_ExcludeData v (mkExclude cs so (Some dir))
    /\ (VirtualAddress dir <> 0 -> 0 <= VirtualAddress dir ->
        u32 (FileSize_LowPart v) ->
        VirtualAddress dir < FileSize_LowPart v).
Proof.
  intros Hrun dir.
  destruct (exclude_offsets v) as [[[cs so] d]|] eqn:E.
  - destruct (exclude_offsets_inv v cs so d E) as (Ed & _).
    fold dir in Ed. subst d. exists cs, so. split; [reflexivity|].
    split.
    + unfold HashpGetExcludeRange in Hrun. rewrite E in Hrun.
      destruct (if negb (VirtualAddress dir =? 0)
                then check_security_directory v dir else None);
        inversion Hrun. reflexivity.
    + intros Hnz H0 Hf.
      rewrite (HashpGetExcludeRange_checks_in_order v cs so dir E Hnz H0 Hf)
        in Hrun.
      destruct (NumberOfSections (NtHeaders v) =? 0); [discriminate|].
      match type of Hrun with
      | (if ?c then _ else _) = _ => destruct c; [discriminate|]
      end.
      destruct (Z.leb_spec (FileSize_LowPart v) (VirtualAddress dir));
        [discriminate|assumption].
  - unfold HashpGetExcludeRange in Hrun. rewrite E in Hrun. discriminate.
Qed.

(** X11.  The two routines fit together.  When HashpGetExcludeRange has
    accepted a view that maps the whole of a file shorter than 4 GiB, the
    NT headers start at a non-negative offset and the security directory
    entry ends at or before [certEnd] (the file size for an unsigned image,
    the virtual address of the certificate blob for a signed one), then
    CalculateAuthenticodeHash on the view it returned, with a provider that
    accepts every call, returns TRUE and leaves the digest of the file
    without its checksum field, its security directory entry and its
    certificate blob, padded to a multiple of 8 bytes. *)
Theorem HashpGetExcludeRange_then_CalculateAuthenticodeHash
    (v v' : FILE_VIEW_INFO) (ctx : CNG_CTX) :
  let dir := DataDirectory_Security (NtHeaders v) in
  let certEnd := certEnd_of v dir in
  let cs := e_lfanew v + 88 in
  let so := e_lfanew v + SecurityEntry_end (Magic (NtHeaders v)) - 8 in
  let img := ViewBase v in
  HashpGetExcludeRange v = (TRUE, v') ->
  0 <= e_lfanew v ->
  so + 8 <= certEnd ->
  Z.of_nat (length img) = FileSize_LowPart v ->
  FileSize_LowPart v < 2 ^ 32 ->
  Script ctx = [] ->
  exists ctx',
    CalculateAuthenticodeHash v' ctx = (Returned TRUE, v', ctx')
    /\ Hash ctx'
       = AlgHandle ctx
           (absorbed (Events ctx)
            ++ span img 0 cs ++ span img (cs + 4) so
            ++ span img (so + 8) certEnd
            ++ repeat x00 (Z.to_nat (alignment_pad (certEnd - (so + 8))))).
Proof.
  intros dir certEnd cs so img Hrun H0 Hend Hlen Hf Hs.
  destruct (HashpGetExcludeRange_true_inv v v' Hrun)
    as (cs' & so' & E & Ev' & Hva). fold dir in E, Ev', Hva.
  destruct (exclude_offsets_inv v cs' so' dir E) as (_ & Ecs & Hm).
  assert (Hfs : 0 <= FileSize_LowPart v) by lia.
  assert (Hce : certEnd <= FileSize_LowPart v).
  { unfold certEnd, certEnd_of in *.
    destruct (Z.eqb_spec (VirtualAddress dir) 0) as [Ez|Enz]; [lia|].
    assert (VirtualAddress dir < FileSize_LowPart v); [|lia].
    apply Hva; [exact Enz| |unfold u32; lia].
    unfold so, SecurityEntry_end, SecurityEntry_offset64,
      SecurityEntry_offset32, sizeof_IMAGE_DATA_DIRECTORY in Hend.
    destruct (Magic (NtHeaders v) =? IMAGE_NT_OPTIONAL_HDR64_MAGIC); lia. }
  assert (Eso : so' = so /\ cs + 4 <= so).
  { unfold so, cs, SecurityEntry_end, SecurityEntry_offset64,
      SecurityEntry_offset32, sizeof_IMAGE_DATA_DIRECTORY in *.
    destruct (Z.eqb_spec (Magic (NtHeaders v)) IMAGE_NT_OPTIONAL_HDR64_MAGIC)
      as [M|M]; destruct Hm as [[Hm ->]|[Hm ->]];
      try contradiction; try (rewrite Hm in M; discriminate);
      (split; [rewrite wrap32_small by lia; lia|lia]). }
  destruct Eso as [Eso Hord]. subst so'.
  assert (Ecs' : cs' = cs) by (rewrite Ecs; apply wrap32_small; unfold cs; lia).
  clear Ecs. subst cs'. subst v'.
  destruct ctx as [alg evs sc h]. simpl in Hs. subst sc.
  unfold CalculateAuthenticodeHash, try_except.
  rewrite (CalculateAuthenticodeHash_try_ok
             (set_ExcludeData v (mkExclude cs so (Some dir))) dir alg evs h);
    simpl; try reflexivity; try (unfold cs; lia); try lia.
  - eexists. split; [reflexivity|]. simpl. f_equal.
    rewrite absorbed_app. f_equal.
    change (certEnd_of (set_ExcludeData v (mkExclude cs so (Some dir))) dir)
      with certEnd.
    fold img. unfold alignment_pad.
    destruct ((certEnd - (so + 8)) mod 8 =? 0); simpl;
      rewrite ?app_nil_r; reflexivity.
  - exact Hend.
  - change (certEnd_of (set_ExcludeData v (mkExclude cs so (Some dir))) dir)
      with certEnd. fold img. lia.
  - change (certEnd_of (set_ExcludeData v (mkExclude cs so (Some dir))) dir)
      with certEnd. lia.
Qed.

Lemma HashpGetExcludeRange_then_CalculateAuthenticodeHash_witness :
  let v' := snd (HashpGetExcludeRange signed_view) in
  exists ctx',
    CalculateAuthenticodeHash v' fresh_ctx = (Returned TRUE, v', ctx')
    /\ Hash ctx' = repeat x01 164.
Proof.
  cbv zeta.
  destruct (HashpGetExcludeRange_then_CalculateAuthenticodeHash signed_view
              (snd (HashpGetExcludeRange signed_view)) fresh_ctx)
    as (ctx' & Hrun & Hh).
  - reflexivity.
  - simpl. lia.
  - vm_compute. discriminate.
  - reflexivity.
  - simpl. lia.
  - reflexivity.
  - exists ctx'. split; [exact Hrun|]. rewrite Hh. vm_compute. reflexivity.
Defined.

(** ** CalculateFirstPageHash: the two fields are not hashed *)

Lemma skip_fields_clear (cs so o : Z) :
  0 <= cs -> cs + 4 < so ->
  ~ (cs < o < cs + 4) -> ~ (so < o < so + 8) ->
  o <= skip_fields cs so o <= o + 8
  /\ ~ (cs <= skip_fields cs so o < cs + 4)
  /\ ~ (so <= skip_fields cs so o < so + 8).
Proof.
  intros H0 Hord Hc Hs. unfold skip_fields.
  destruct (Z.eqb_spec o cs); [lia|].
  destruct (Z.eqb_spec o so); lia.
Qed.

Lemma FirstPage_while_agree (PageSize : Z) (v1 v2 : FILE_VIEW_INFO)
    (soh : Z) :
  let cs := ChecksumOffset (ExcludeData v1) in
  let so := SecurityOffset (ExcludeData v1) in
  ExcludeData v2 = ExcludeData v1 ->
  length (ViewBase v1) = length (ViewBase v2) ->
  0 <= cs -> cs + 4 < so -> PageSize + 8 < 2 ^ 32 ->
  agree_outside_fields (ViewBase v1) (ViewBase v2) cs so ->
  forall (fuel : nat) (offset : Z) (ctx : CNG_CTX),
    0 <= offset -> ~ (cs < offset < cs + 4) -> ~ (so < offset < so + 8) ->
    FirstPage_while fuel PageSize v1 soh offset ctx
    = FirstPage_while fuel PageSize v2 soh offset ctx.
Proof.
  intros cs so Hx Hlen H0 Hord Hp Hag.
  induction fuel as [|fuel IH]; intros offset ctx Ho Hc Hs; [reflexivity|].
  cbn [FirstPage_while]. rewrite Hx. fold cs so.
  destruct (Z.ltb_spec offset PageSize) as [Hlt|Hge]; [|reflexivity].
  assert (E1 : (if offset =? cs then wrap32 (offset + CheckSum_size)
                else if offset =? so
                then wrap32 (offset + sizeof_IMAGE_DATA_DIRECTORY)
                else offset) = skip_fields cs so offset).
  { unfold skip_fields, CheckSum_size, sizeof_IMAGE_DATA_DIRECTORY.
    destruct (offset =? cs); [apply wrap32_small; lia|].
    destruct (offset =? so); [apply wrap32_small; lia|reflexivity]. }
  rewrite E1.
  destruct (skip_fields_clear cs so offset H0 Hord Hc Hs) as (Hr & Hc1 & Hs1).
  destruct (skip_fields cs so offset >=? soh); [reflexivity|].
  apply bind_ext.
  - apply BCryptHashData_agree, read_span_agree; [exact Hlen|].
    intros i Hi Hin. apply Hag; [exact Hi|lia|lia].
  - intros st c _. destruct (negb (NT_SUCCESS st)); [reflexivity|].
    rewrite wrap32_small by lia. apply IH; lia.
Qed.

(** X12.  The page hash does not see the two excluded fields.  For a
    descriptor with [0 <= checksumOffset] and
    [checksumOffset + 4 < securityOffset] and a page size below
    4 GiB - 8, two views of the same length with the same sizeOfHeaders
    whose bytes agree outside the checksum field and the security directory
    entry make CalculateFirstPageHash do exactly the same: same result and
    same hash context, for every iteration budget and every behaviour of
    the provider. *)
Theorem CalculateFirstPageHash_ignores_fields (fuel : nat) (PageSize : Z)
    (v1 v2 : FILE_VIEW_INFO) (ctx : CNG_CTX) :
  let cs := ChecksumOffset (ExcludeData v1) in
  let so := SecurityOffset (ExcludeData v1) in
  ExcludeData v2 = ExcludeData v1 ->
  HashpGetSizeOfHeaders (NtHeaders v2) = HashpGetSizeOfHeaders (NtHeaders v1) ->
  length (ViewBase v1) = length (ViewBase v2) ->
  0 <= cs -> cs + 4 < so -> PageSize + 8 < 2 ^ 32 ->
  agree_outside_fields (ViewBase v1) (ViewBase v2) cs so ->
  fst (fst (CalculateFirstPageHash fuel PageSize v1 ctx))
  = fst (fst (CalculateFirstPageHash fuel PageSize v2 ctx))
  /\ snd (CalculateFirstPageHash fuel PageSize v1 ctx)
     = snd (CalculateFirstPageHash fuel PageSize v2 ctx).
Proof.
  intros cs so Hx Hsoh Hlen H0 Hord Hp Hag.
  assert (E : CalculateFirstPageHash_try fuel PageSize v1 ctx
              = CalculateFirstPageHash_try fuel PageSize v2 ctx).
  { unfold CalculateFirstPageHash_try. rewrite Hsoh.
    apply bind_ext; [|reflexivity].
    apply (FirstPage_while_agree PageSize v1 v2 _ Hx Hlen H0 Hord Hp Hag);
      fold cs so; lia. }
  unfold CalculateFirstPageHash, try_except. rewrite E.
  destruct (CalculateFirstPageHash_try fuel PageSize v2 ctx) as [[b| |] c];
    split; reflexivity.
Qed.

Lemma CalculateFirstPageHash_ignores_fields_witness :
  let v2 := mkView (repeat x01 4 ++ repeat x02 4 ++ repeat x01 4
                    ++ repeat x03 8 ++ repeat x01 20) 40 0
                   (NtHeaders small_view) (ExcludeData small_view)
                   IMAGE_VERIFY_OK in
  fst (fst (CalculateFirstPageHash 40 32 small_view fresh_ctx))
  = fst (fst (CalculateFirstPageHash 40 32 v2 fresh_ctx))
  /\ snd (CalculateFirstPageHash 40 32 small_view fresh_ctx)
     = snd (CalculateFirstPageHash 40 32 v2 fresh_ctx).
Proof.
  cbv zeta.
  apply (CalculateFirstPageHash_ignores_fields 40 32 small_view
           (mkView (repeat x01 4 ++ repeat x02 4 ++ repeat x01 4
                    ++ repeat x03 8 ++ repeat x01 20) 40 0
                   (NtHeaders small_view) (ExcludeData small_view)
                   IMAGE_VERIFY_OK) fresh_ctx).
  - reflexivity.
  - reflexivity.
  - reflexivity.
  - simpl. lia.
  - simpl. lia.
  - lia.
  - intros i Hi H1 H2. simpl in Hi, H1, H2.
    do 40 (destruct i as [|i]; [first [reflexivity | exfalso; lia] |]).
    lia.
Defined.

(** ** CalculateFirstPageHash: what a result means *)

Lemma FirstPage_while_outcome (PageSize : Z) (v : FILE_VIEW_INFO) (soh : Z) :
  forall (fuel : nat) (offset : Z) (ctx : CNG_CTX),
  exists o ctx' fed rest,
    FirstPage_while fuel PageSize v soh offset ctx = (o, ctx')
    /\ Events ctx' = Events ctx ++ fed ++ rest
    /\ Forall accepted fed
    /\ Hash ctx' = Hash ctx
    /\ AlgHandle ctx' = AlgHandle ctx
    /\ match o with
       | Returned (LoopExit _) => rest = []
       | Returned (LoopReturn b) => b = FALSE
       | Raised => True
       | OutOfFuel => rest = []
       end.
Proof.
  induction fuel as [|fuel IH]; intros offset ctx.
  - exists OutOfFuel, ctx, [], []. simpl. rewrite app_nil_r. repeat split; auto.
  - cbn [FirstPage_while].
    destruct (offset <? PageSize).
    2:{ exists (Returned (LoopExit offset)), ctx, [], [].
        unfold ret. simpl. rewrite app_nil_r. repeat split; auto. }
    match goal with
    | |- context [if ?o >=? soh then _ else _] => set (offset1 := o)
    end.
    destruct (offset1 >=? soh).
    { exists (Returned (LoopExit offset1)), ctx, [], [].
      unfold ret. simpl. rewrite app_nil_r. repeat split; auto. }
    unfold bind.
    destruct (BCryptHashData_shape Image (ViewBase v) offset1 1 ctx)
      as [(c & E & Ev & Hh & Ha) | (c & d & E & Ev & Hh & Ha)]; rewrite E.
    { exists Raised, c, [], [EvFault Image offset1 1].
      repeat split; auto. }
    destruct (NT_SUCCESS (next_status ctx)) eqn:N; simpl negb; cbv iota.
    + destruct (IH (wrap32 (offset1 + 1)) c)
        as (o & c' & fed & rest & E' & Ev' & F & Hh' & Ha' & Ho).
      exists o, c', (EvHashData Image offset1 d (next_status ctx) :: fed), rest.
      split; [exact E'|].
      split; [rewrite Ev', Ev, <- app_assoc; reflexivity|].
      split; [constructor; [exact N|exact F]|].
      split; [congruence|]. split; [congruence|exact Ho].
    + exists (Returned (LoopReturn FALSE)), c, [],
        [EvHashData Image offset1 d (next_status ctx)].
      unfold ret. repeat split; auto.
Qed.

Lemma accepted_page_call_ok (l : list event) :
  Forall accepted l -> Forall page_call_ok l.
Proof.
  intros F. induction F as [|e l He _ IH]; constructor; [|exact IH].
  destruct e as [[|] off d st|src off cb|st]; simpl in *; auto.
Qed.

Lemma pad_events_page_call_ok (count : Z) (script : list NTSTATUS) :
  Forall page_call_ok (pad_events count script).
Proof.
  unfold pad_events. apply Forall_app. split.
  - generalize (Z.to_nat (count / 8)). intros n. revert script.
    induction n as [|n IH]; intros script; simpl; constructor;
      [exact I|apply IH].
  - destruct (count mod 8 =? 0); repeat constructor.
Qed.

(** X13.  What a result of CalculateFirstPageHash means, for every page
    size, view, descriptor, iteration budget and behaviour of the
    provider.  It returns TRUE only after a finishing call that succeeded,
    made last, after image bytes that the provider all accepted and
    padding; the digest buffer then holds the digest of the bytes the
    provider accepted.  In every other case, FALSE or a run cut short, the
    digest buffer is as it was. *)
Theorem CalculateFirstPageHash_outcome (fuel : nat) (PageSize : Z)
    (v : FILE_VIEW_INFO) (ctx : CNG_CTX) :
  exists o v' ctx' new,
    CalculateFirstPageHash fuel PageSize v ctx = (o, v', ctx')
    /\ Events ctx' = Events ctx ++ new
    /\ (o = Returned TRUE \/ o = Returned FALSE \/ o = OutOfFuel)
    /\ (o = Returned TRUE ->
        v' = v
        /\ exists fed st,
             new = fed ++ [EvFinish st]
             /\ NT_SUCCESS st = true
             /\ Forall page_call_ok fed
             /\ Hash ctx' = AlgHandle ctx (absorbed (Events ctx ++ fed)))
    /\ (o <> Returned TRUE -> Hash ctx' = Hash ctx).
Proof.
  unfold CalculateFirstPageHash, try_except, CalculateFirstPageHash_try.
  set (soh := HashpGetSizeOfHeaders (NtHeaders v)).
  unfold bind at 1.
  destruct (FirstPage_while_outcome PageSize v soh fuel 0 ctx)
    as (o & c & fed & rest & E & Ev & F & Hh & Ha & Ho).
  rewrite E.
  destruct o as [[offset|b]| |].
  - subst rest. rewrite app_nil_r in Ev.
    assert (Hpad : exists c1 pad,
               (if offset <? PageSize
                then ntStatus <- HashpAddPad (wrap32 (PageSize - offset));;
                     ret (NT_SUCCESS ntStatus)
                else ret true) c
               = (Returned (if offset <? PageSize
                            then NT_SUCCESS
                                   (pad_status (wrap32 (PageSize - offset)) c)
                            else true), c1)
               /\ Events c1 = Events c ++ pad
               /\ Forall page_call_ok pad
               /\ Hash c1 = Hash c /\ AlgHandle c1 = AlgHandle c).
    { destruct (offset <? PageSize).
      - unfold bind, ret.
        rewrite HashpAddPad_eq by apply wrap32_range.
        destruct (pad_final_fields (wrap32 (PageSize - offset)) c)
          as (_ & A & H).
        do 2 eexists. split; [reflexivity|].
        split; [apply pad_final_Events|].
        split; [apply pad_events_page_call_ok|]. auto.
      - exists c, []. unfold ret. rewrite app_nil_r.
        repeat split; auto. }
    destruct Hpad as (c1 & pad & Ep & Evp & Fp & Hhp & Hap).
    unfold bind at 1. rewrite Ep.
    destruct (if offset <? PageSize
              then NT_SUCCESS (pad_status (wrap32 (PageSize - offset)) c)
              else true); simpl negb; cbv iota.
    + cbv beta iota zeta delta [bind ret BCryptFinishHash negb].
      destruct (NT_SUCCESS (next_status c1)) eqn:N.
      * do 4 eexists. split; [reflexivity|]. cbn [Events Hash].
        split; [rewrite Evp, Ev, <- !app_assoc; reflexivity|].
        split; [left; reflexivity|].
        split; [|intros C; exfalso; apply C; reflexivity].
        intros _. split; [reflexivity|].
        exists (fed ++ pad), (next_status c1).
        split; [rewrite <- app_assoc; reflexivity|]. split; [exact N|].
        split; [apply Forall_app; split;
                [apply accepted_page_call_ok; exact F|exact Fp]|].
        rewrite Hap, Ha, Evp, Ev, app_assoc. reflexivity.
      * do 4 eexists. split; [reflexivity|]. cbn [Events Hash].
        split; [rewrite Evp, Ev, <- !app_assoc; reflexivity|].
        split; [right; left; reflexivity|]. split; [discriminate|]. intros _. congruence.
    + cbv beta iota zeta delta [ret negb].
      do 4 eexists. split; [reflexivity|].
      split; [rewrite Evp, Ev, <- !app_assoc; reflexivity|].
      split; [right; left; reflexivity|]. split; [discriminate|]. intros _. congruence.
  - subst b. unfold ret. do 4 eexists. split; [reflexivity|].
    split; [exact Ev|]. split; [right; left; reflexivity|]. split; [discriminate|].
    intros _. exact Hh.
  - do 4 eexists. split; [reflexivity|].
    split; [exact Ev|]. split; [right; left; reflexivity|]. split; [discriminate|].
    intros _. exact Hh.
  - do 4 eexists. split; [reflexivity|].
    split; [exact Ev|]. split; [right; right; reflexivity|]. split; [discriminate|].
    intros _. exact Hh.
Qed.

(** ** CalculateFirstPageHash: how much is hashed *)

Lemma page_walk_bounds (PageSize cs so soh : Z) (img : list byte)
    (o : Z) (evs : list event) (o' : Z) :
  page_walk PageSize cs so soh img o evs o' ->
  o <= o'
  /\ 0 <= o' - o - Z.of_nat (length evs)
     <= (if o <=? cs then 4 else 0) + (if o <=? so then 8 else 0)
  /\ Z.of_nat (length evs) <= Z.max 0 (PageSize - o)
  /\ length (fed_bytes evs) = length evs.
Proof.
  intros W.
  induction W as [o H | o H1 H2 | o b evs o' H1 H2 H3 W IH].
  - simpl. destruct (o <=? cs), (o <=? so); lia.
  - unfold skip_fields. simpl.
    destruct (Z.eqb_spec o cs), (Z.eqb_spec o so),
      (Z.leb_spec o cs), (Z.leb_spec o so); lia.
  - destruct IH as (I1 & I2 & I3 & I4).
    unfold fed_bytes in *. cbn [flat_map fed_data length app].
    rewrite I4. split; [|split; [|split; [|reflexivity]]].
    + unfold skip_fields in *.
      destruct (Z.eqb_spec o cs), (Z.eqb_spec o so); lia.
    + unfold skip_fields in *.
      destruct (Z.eqb_spec o cs), (Z.eqb_spec o so),
        (Z.leb_spec o cs), (Z.leb_spec o so),
        (Z.leb_spec (o + 4 + 1) cs), (Z.leb_spec (o + 4 + 1) so),
        (Z.leb_spec (o + 8 + 1) cs), (Z.leb_spec (o + 8 + 1) so),
        (Z.leb_spec (o + 1) cs), (Z.leb_spec (o + 1) so); lia.
    + unfold skip_fields in *.
      destruct (Z.eqb_spec o cs), (Z.eqb_spec o so); lia.
Qed.

(** X14.  The page digest covers the page but for the excluded fields.
    With a page size below 4 GiB - 8, headers inside the view, a provider
    that accepts every call and enough iterations, CalculateFirstPageHash
    returns TRUE after feeding, image bytes and padding together, at most
    [PageSize] bytes and at least [PageSize - 12], whatever the
    descriptor. *)
Theorem CalculateFirstPageHash_fed_length (fuel : nat) (PageSize : Z)
    (v : FILE_VIEW_INFO) (ctx : CNG_CTX) :
  0 <= PageSize -> PageSize + 8 < 2 ^ 32 ->
  HashpGetSizeOfHeaders (NtHeaders v) <= Z.of_nat (length (ViewBase v)) ->
  Script ctx = [] ->
  (Z.to_nat PageSize < fuel)%nat ->
  exists ctx' new,
    CalculateFirstPageHash fuel PageSize v ctx = (Returned TRUE, v, ctx')
    /\ Events ctx' = Events ctx ++ new
    /\ PageSize - 12 <= Z.of_nat (length (fed_bytes new)) <= PageSize.
Proof.
  intros Hp0 Hp Hsoh Hs Hfuel.
  destruct ctx as [alg evs sc h]. simpl in Hs. subst sc.
  set (soh := HashpGetSizeOfHeaders (NtHeaders v)) in *.
  destruct (FirstPage_while_ok PageSize v soh alg h Hp Hsoh fuel 0 evs)
    as (walked & o & W & E & Ho); [lia|rewrite Z.sub_0_r; exact Hfuel|].
  destruct (page_walk_bounds _ _ _ _ _ _ _ _ W) as (_ & B1 & B2 & B3).
  assert (B1' : 0 <= o - Z.of_nat (length walked) <= 12).
  { destruct (0 <=? ChecksumOffset (ExcludeData v)),
      (0 <=? SecurityOffset (ExcludeData v)); lia. }
  set (pad := if o <? PageSize then pad_events (PageSize - o) [] else []).
  assert (Hrun : exists hash,
             CalculateFirstPageHash fuel PageSize v (mkCNG_CTX alg evs [] h)
             = (Returned TRUE, v,
                mkCNG_CTX alg
                  (evs ++ (walked ++ pad) ++ [EvFinish STATUS_SUCCESS]) []
                  hash)).
  { unfold CalculateFirstPageHash, try_except, CalculateFirstPageHash_try.
    fold soh. unfold bind at 1. rewrite E. unfold pad.
    destruct (Z.ltb_spec o PageSize) as [Hlt|Hge].
    - unfold bind at 1. unfold bind at 1.
      rewrite wrap32_small by lia.
      rewrite HashpAddPad_ok by (unfold u32; lia).
      eexists. unfold bind, ret, BCryptFinishHash. simpl.
      rewrite <- ?app_assoc. reflexivity.
    - eexists. unfold bind, ret, BCryptFinishHash. simpl.
      rewrite ?app_nil_r, <- ?app_assoc. reflexivity. }
  destruct Hrun as (hash & Hrun).
  do 2 eexists. split; [exact Hrun|]. cbn [Events].
  split; [reflexivity|].
  unfold fed_bytes in *. rewrite !flat_map_app, !length_app.
  rewrite B3. cbn [flat_map fed_data length app].
  unfold pad. destruct (Z.ltb_spec o PageSize) as [Hlt|Hge].
  - fold (fed_bytes (pad_events (PageSize - o) [])).
    rewrite pad_events_bytes by lia. rewrite repeat_length. lia.
  - cbn [flat_map length]. lia.
Qed.

Lemma CalculateFirstPageHash_fed_length_witness :
  exists ctx' new,
    CalculateFirstPageHash 40 32 small_view fresh_ctx
    = (Returned TRUE, small_view, ctx')
    /\ Events ctx' = Events fresh_ctx ++ new
    /\ 32 - 12 <= Z.of_nat (length (fed_bytes new)) <= 32.
Proof.
  apply (CalculateFirstPageHash_fed_length 40 32 small_view fresh_ctx).
  - lia.
  - lia.
  - vm_compute. discriminate.
  - reflexivity.
  - vm_compute. lia.
Defined.

(** ** CreateHashContext and DestroyHashContext: resources *)

Lemma filter_blocks_fresh (heap block n : nat) (hb : list (nat * nat)) :
  Forall (fun b => (snd b < n)%nat) hb -> (n <= block)%nat ->
  filter (fun b => negb (same_block b (heap, block))) hb = hb.
Proof.
  intros F Hn. induction F as [|[h b] hb Hb _ IH]; [reflexivity|].
  simpl in *. unfold same_block at 1. simpl.
  replace (Nat.eqb b block) with false
    by (symmetry; apply Nat.eqb_neq; lia).
  rewrite andb_false_r. simpl. rewrite IH. reflexivity.
Qed.

Lemma filter_handles_fresh (a n : nat) (l : list nat) :
  Forall (fun x => (x < n)%nat) l -> (n <= a)%nat ->
  filter (fun x => negb (Nat.eqb x a)) l = l.
Proof.
  intros F Hn. induction F as [|x l Hx _ IH]; [reflexivity|].
  simpl. replace (Nat.eqb x a) with false
    by (symmetry; apply Nat.eqb_neq; lia).
  simpl. rewrite IH. reflexivity.
Qed.

Lemma filter_blocks_same (heap block : nat) (hb : list (nat * nat)) :
  filter (fun b => negb (same_block b (heap, block))) ((heap, block) :: hb)
  = filter (fun b => negb (same_block b (heap, block))) hb.
Proof.
  cbn [filter]. unfold same_block at 1. cbn [fst snd].
  rewrite !Nat.eqb_refl. reflexivity.
Qed.

Lemma filter_blocks_other (heap block b' : nat) (hb : list (nat * nat)) :
  b' <> block ->
  filter (fun b => negb (same_block b (heap, block))) ((heap, b') :: hb)
  = (heap, b') :: filter (fun b => negb (same_block b (heap, block))) hb.
Proof.
  intros D. cbn [filter]. unfold same_block at 1. cbn [fst snd].
  apply Nat.eqb_neq in D. rewrite D, andb_false_r. reflexivity.
Qed.

Lemma filter_handles_same (a : nat) (l : list nat) :
  filter (fun x => negb (Nat.eqb x a)) (a :: l)
  = filter (fun x => negb (Nat.eqb x a)) l.
Proof. cbn [filter]. rewrite Nat.eqb_refl. reflexivity. Qed.

(** Frees the blocks and handles named in the goal. *)
Ltac free_blocks :=
  repeat first
    [ rewrite filter_blocks_same
    | rewrite filter_blocks_other by lia
    | rewrite filter_handles_same
    | match goal with
      | F : Forall _ ?hb |- context [filter _ ?hb] =>
          first [rewrite (filter_blocks_fresh _ _ _ hb F) by lia
                |rewrite (filter_handles_fresh _ _ hb F) by lia]
      end ].

Lemma CreateHashContext_release_spec (heap context : nat)
    (f : CNG_CTX_FIELDS) (st : NTSTATUS) (sys : SYSTEM) :
  CreateHashContext_release heap context f st sys
  = (st, None,
     mkSystem
       (filter (fun b => negb (same_block b (heap, context)))
          (heap_blocks (HeapFree_if heap (ctx_HashObject f)
                          (HeapFree_if heap (ctx_Hash f) sys))))
       (alg_handles sys) (hash_handles sys) (next_id sys)
       (alloc_answers sys) (cng_answers sys)
       (ObjectLength sys) (HashLength sys)).
Proof.
  unfold CreateHashContext_release, HeapFree_if, HeapFree.
  destruct (ctx_Hash f), (ctx_HashObject f); reflexivity.
Qed.

Lemma HeapAlloc_shape (heap : nat) (sys : SYSTEM) :
  exists s1,
    cng_answers s1 = cng_answers sys
    /\ ObjectLength s1 = ObjectLength sys /\ HashLength s1 = HashLength sys
    /\ alloc_answers s1 = tl (alloc_answers sys)
    /\ alg_handles s1 = alg_handles sys
    /\ hash_handles s1 = hash_handles sys
    /\ (HeapAlloc heap sys = (None, s1)
        /\ hd true (alloc_answers sys) = false
        /\ heap_blocks s1 = heap_blocks sys
        /\ next_id s1 = next_id sys
        \/ HeapAlloc heap sys = (Some (next_id sys), s1)
           /\ hd true (alloc_answers sys) = true
           /\ heap_blocks s1 = (heap, next_id sys) :: heap_blocks sys
           /\ next_id s1 = S (next_id sys)).
Proof.
  exists (snd (HeapAlloc heap sys)). unfold HeapAlloc.
  destruct (alloc_answers sys) as [|[|] aa]; simpl;
    (do 6 (split; [reflexivity|]));
    first [left; repeat split; reflexivity | right; repeat split; reflexivity].
Qed.

Lemma BCryptOpenAlgorithmProvider_shape (sys : SYSTEM) :
  exists s1,
    cng_answers s1 = tl (cng_answers sys)
    /\ ObjectLength s1 = ObjectLength sys /\ HashLength s1 = HashLength sys
    /\ alloc_answers s1 = alloc_answers sys
    /\ heap_blocks s1 = heap_blocks sys
    /\ hash_handles s1 = hash_handles sys
    /\ (BCryptOpenAlgorithmProvider sys
        = (hd STATUS_SUCCESS (cng_answers sys), None, s1)
        /\ NT_SUCCESS (hd STATUS_SUCCESS (cng_answers sys)) = false
        /\ alg_handles s1 = alg_handles sys
        /\ next_id s1 = next_id sys
        \/ BCryptOpenAlgorithmProvider sys
           = (hd STATUS_SUCCESS (cng_answers sys), Some (next_id sys), s1)
           /\ NT_SUCCESS (hd STATUS_SUCCESS (cng_answers sys)) = true
           /\ alg_handles s1 = next_id sys :: alg_handles sys
           /\ next_id s1 = S (next_id sys)).
Proof.
  exists (snd (BCryptOpenAlgorithmProvider sys)). unfold BCryptOpenAlgorithmProvider.
  destruct (NT_SUCCESS (hd STATUS_SUCCESS (cng_answers sys))); cbn [snd];
    cbn [cng_answers ObjectLength HashLength alloc_answers heap_blocks
         alg_handles hash_handles next_id];
    (do 6 (split; [reflexivity|]));
    first [left; repeat split; reflexivity | right; repeat split; reflexivity].
Qed.

Lemma BCryptCreateHash_shape (sys : SYSTEM) :
  exists s1,
    cng_answers s1 = tl (cng_answers sys)
    /\ ObjectLength s1 = ObjectLength sys /\ HashLength s1 = HashLength sys
    /\ alloc_answers s1 = alloc_answers sys
    /\ heap_blocks s1 = heap_blocks sys
    /\ alg_handles s1 = alg_handles sys
    /\ (BCryptCreateHash sys
        = (hd STATUS_SUCCESS (cng_answers sys), None, s1)
        /\ NT_SUCCESS (hd STATUS_SUCCESS (cng_answers sys)) = false
        /\ hash_handles s1 = hash_handles sys
        /\ next_id s1 = next_id sys
        \/ BCryptCreateHash sys
           = (hd STATUS_SUCCESS (cng_answers sys), Some (next_id sys), s1)
           /\ NT_SUCCESS (hd STATUS_SUCCESS (cng_answers sys)) = true
           /\ hash_handles s1 = next_id sys :: hash_handles sys
           /\ next_id s1 = S (next_id sys)).
Proof.
  exists (snd (BCryptCreateHash sys)). unfold BCryptCreateHash.
  destruct (NT_SUCCESS (hd STATUS_SUCCESS (cng_answers sys))); cbn [snd];
    cbn [cng_answers ObjectLength HashLength alloc_answers heap_blocks
         alg_handles hash_handles next_id];
    (do 6 (split; [reflexivity|]));
    first [left; repeat split; reflexivity | right; repeat split; reflexivity].
Qed.

Lemma BCryptGetProperty_shape (value : SYSTEM -> Z) (sys : SYSTEM) :
  exists len s1,
    BCryptGetProperty value sys
    = (hd STATUS_SUCCESS (cng_answers sys), len, s1)
    /\ cng_answers s1 = tl (cng_answers sys)
    /\ ObjectLength s1 = ObjectLength sys /\ HashLength s1 = HashLength sys
    /\ alloc_answers s1 = alloc_answers sys
    /\ heap_blocks s1 = heap_blocks sys
    /\ alg_handles s1 = alg_handles sys
    /\ hash_handles s1 = hash_handles sys
    /\ next_id s1 = next_id sys
    /\ (NT_SUCCESS (hd STATUS_SUCCESS (cng_answers sys)) = true ->
        len = Some (value sys)).
Proof.
  unfold BCryptGetProperty. do 2 eexists. repeat split.
  intros E. rewrite E. reflexivity.
Qed.

(** Rewrites the fields of the intermediate systems down to the first. *)
Ltac norm_sys :=
  repeat match goal with
         | H : ?p ?s = _ |- context [?p ?s] => is_var s; rewrite H
         end.

Ltac norm_sys_in K :=
  repeat match goal with
         | H : ?p ?s = _ |- _ =>
             is_var s;
             match type of K with context [p s] => rewrite H in K end
         end.

(** The outcome of CreateHashContext, step by step: the resources it
    leaves and the status it returns. *)
Lemma CreateHashContext_cases (heap : nat) (sys : SYSTEM) :
  ids_below_next sys ->
  let n := next_id sys in
  let opened :=
    hd true (alloc_answers sys)
    && NT_SUCCESS (hd STATUS_SUCCESS (cng_answers sys)) in
  exists st c sys',
    CreateHashContext heap sys = (st, c, sys')
    /\ (c = None
        /\ NT_SUCCESS st = false
        /\ heap_blocks sys' = heap_blocks sys
        /\ hash_handles sys' = hash_handles sys
        /\ alg_handles sys'
           = (if opened then S n :: alg_handles sys else alg_handles sys)
        \/ c = Some (n, mkFields (Some (S n)) (Some (4 + n)%nat)
                          (Some (2 + n)%nat) (ObjectLength sys)
                          (Some (3 + n)%nat) (HashLength sys) heap)
           /\ st = STATUS_SUCCESS
           /\ opened = true
           /\ heap_blocks sys'
              = (heap, (3 + n)%nat) :: (heap, (2 + n)%nat) :: (heap, n)
                :: heap_blocks sys
           /\ alg_handles sys' = S n :: alg_handles sys
           /\ hash_handles sys' = (4 + n)%nat :: hash_handles sys
           /\ next_id sys' = (5 + n)%nat
           /\ alloc_answers sys' = skipn 3 (alloc_answers sys)
           /\ cng_answers sys' = skipn 4 (cng_answers sys)).
Proof.
  intros (Fb & Fa & Fh) n opened. unfold CreateHashContext.
  destruct (HeapAlloc_shape heap sys)
    as (s0 & C0 & O0 & L0 & A0 & G0 & H0 & [(E & Q0 & B0 & N0)|(E & Q0 & B0 & N0)]);
    rewrite E.
  { do 3 eexists. split; [reflexivity|]. left.
    unfold opened. rewrite Q0. simpl. norm_sys. auto. }
  destruct (BCryptOpenAlgorithmProvider_shape s0)
    as (s1 & C1 & O1 & L1 & A1 & B1 & H1 & [(E1 & Q1 & G1 & N1)|(E1 & Q1 & G1 & N1)]);
    rewrite E1, Q1; cbn [negb]; rewrite C0 in Q1.
  { rewrite CreateHashContext_release_spec.
    do 3 eexists. split; [reflexivity|]. left.
    unfold opened. rewrite Q0, Q1. cbn [andb alg_handles hash_handles].
    split; [reflexivity|]. split; [rewrite C0; exact Q1|].
    cbn [HeapFree_if ctx_Hash ctx_HashObject heap_blocks].
    norm_sys. split; [free_blocks; reflexivity|]. auto. }
  assert (Eopened : opened = true) by (unfold opened; rewrite Q0, Q1; reflexivity).
  rewrite Eopened.
  destruct (BCryptGetProperty_shape ObjectLength s1)
    as (len2 & s2 & E2 & C2 & O2 & L2 & A2 & B2 & G2 & H2 & N2 & V2).
  rewrite E2.
  destruct (NT_SUCCESS (hd STATUS_SUCCESS (cng_answers s1))) eqn:Q2;
    cbn [negb].
  2:{ rewrite CreateHashContext_release_spec.
      do 3 eexists. split; [reflexivity|]. left.
      cbn [alg_handles hash_handles].
      split; [reflexivity|]. split; [exact Q2|].
      cbn [HeapFree_if ctx_Hash ctx_HashObject heap_blocks].
      norm_sys. split; [free_blocks; reflexivity|]. auto. }
  destruct (BCryptGetProperty_shape HashLength s2)
    as (len3 & s3 & E3 & C3 & O3 & L3 & A3 & B3 & G3 & H3 & N3 & V3).
  rewrite E3.
  destruct (NT_SUCCESS (hd STATUS_SUCCESS (cng_answers s2))) eqn:Q3;
    cbn [negb].
  2:{ rewrite CreateHashContext_release_spec.
      do 3 eexists. split; [reflexivity|]. left.
      cbn [alg_handles hash_handles].
      split; [reflexivity|]. split; [exact Q3|].
      cbn [HeapFree_if ctx_Hash ctx_HashObject heap_blocks].
      norm_sys. split; [free_blocks; reflexivity|]. auto. }
  rewrite (V2 eq_refl), (V3 eq_refl).
  destruct (HeapAlloc_shape heap s3)
    as (s4 & C4 & O4 & L4 & A4 & G4 & H4 & [(E4 & Q4 & B4 & N4)|(E4 & Q4 & B4 & N4)]);
    rewrite E4.
  { rewrite CreateHashContext_release_spec.
    do 3 eexists. split; [reflexivity|]. left.
    cbn [alg_handles hash_handles].
    split; [reflexivity|]. split; [reflexivity|].
    cbn [HeapFree_if ctx_Hash ctx_HashObject heap_blocks].
    norm_sys. split; [free_blocks; reflexivity|]. auto. }
  destruct (HeapAlloc_shape heap s4)
    as (s5 & C5 & O5 & L5 & A5 & G5 & H5 & [(E5 & Q5 & B5 & N5)|(E5 & Q5 & B5 & N5)]);
    rewrite E5.
  { rewrite CreateHashContext_release_spec.
    do 3 eexists. split; [reflexivity|]. left.
    cbn [alg_handles hash_handles].
    split; [reflexivity|]. split; [reflexivity|].
    cbn [HeapFree_if HeapFree ctx_Hash ctx_HashObject heap_blocks].
    norm_sys. split; [free_blocks; reflexivity|]. auto. }
  destruct (BCryptCreateHash_shape s5)
    as (s6 & C6 & O6 & L6 & A6 & B6 & G6 & [(E6 & Q6 & H6 & N6)|(E6 & Q6 & H6 & N6)]);
    rewrite E6; rewrite Q6; cbn [negb].
  { rewrite CreateHashContext_release_spec.
    do 3 eexists. split; [reflexivity|]. left.
    cbn [alg_handles hash_handles].
    split; [reflexivity|]. split; [exact Q6|].
    cbn [HeapFree_if HeapFree ctx_Hash ctx_HashObject heap_blocks].
    norm_sys. split; [free_blocks; reflexivity|]. auto. }
  do 3 eexists. split; [reflexivity|]. right.
  norm_sys. fold n.
  repeat split; try reflexivity.
  - rewrite <- !tl_skipn. reflexivity.
  - rewrite <- !tl_skipn. reflexivity.
Qed.

(** X15.  CreateHashContext that stores no context returns a failure
    status and gives back every heap block it took: the heap and the hash
    objects are as before the call.  The algorithm provider is the
    exception: once BCryptOpenAlgorithmProvider has succeeded (the first
    allocation and the first provider call succeed), its handle stays open,
    since the failure path calls HeapFree only.  The handles and blocks
    alive before the call were handed out earlier ([ids_below_next]). *)
Theorem CreateHashContext_failure (heap : nat) (sys sys' : SYSTEM)
    (st : NTSTATUS) :
  ids_below_next sys ->
  CreateHashContext heap sys = (st, None, sys') ->
  NT_SUCCESS st = false
  /\ heap_blocks sys' = heap_blocks sys
  /\ hash_handles sys' = hash_handles sys
  /\ alg_handles sys'
     = if hd true (alloc_answers sys)
          && NT_SUCCESS (hd STATUS_SUCCESS (cng_answers sys))
       then S (next_id sys) :: alg_handles sys
       else alg_handles sys.
Proof.
  intros Hids Hrun.
  destruct (CreateHashContext_cases heap sys Hids)
    as (st0 & c0 & s0 & E & [(Ec & R)|(Ec & _)]);
    subst c0; rewrite Hrun in E; inversion E; subst.
  exact R.
Qed.

Lemma CreateHashContext_failure_witness :
  ids_below_next short_heap_system
  /\ NT_SUCCESS STATUS_INSUFFICIENT_RESOURCES = false
  /\ alg_handles (snd (CreateHashContext 7 short_heap_system)) = [2%nat].
Proof.
  split; [repeat constructor|].
  destruct (CreateHashContext_failure 7 short_heap_system
              (snd (CreateHashContext 7 short_heap_system))
              STATUS_INSUFFICIENT_RESOURCES) as (A & _ & _ & B).
  - repeat constructor.
  - reflexivity.
  - split; [exact A | exact B].
Defined.

(** X16.  CreateHashContext that stores a context returns STATUS_SUCCESS
    and holds exactly three new blocks of the caller's heap (the context,
    the hash object and the digest buffer), one provider handle and one
    hash handle; the context records them, the two lengths the provider
    reported and the heap handle; three allocation answers and four
    provider answers were used. *)
Theorem CreateHashContext_success (heap : nat) (sys sys' : SYSTEM)
    (st : NTSTATUS) (context : nat) (f : CNG_CTX_FIELDS) :
  ids_below_next sys ->
  CreateHashContext heap sys = (st, Some (context, f), sys') ->
  st = STATUS_SUCCESS
  /\ ctx_HeapHandle f = heap
  /\ ctx_HashObjectSize f = ObjectLength sys
  /\ ctx_HashSize f = HashLength sys
  /\ (exists object hash alg handle,
        ctx_HashObject f = Some object /\ ctx_Hash f = Some hash
        /\ ctx_AlgHandle f = Some alg /\ ctx_HashHandle f = Some handle
        /\ heap_blocks sys'
           = (heap, hash) :: (heap, object) :: (heap, context)
             :: heap_blocks sys
        /\ alg_handles sys' = alg :: alg_handles sys
        /\ hash_handles sys' = handle :: hash_handles sys
        /\ NoDup [context; alg; object; hash; handle]
        /\ Forall (fun i => (next_id sys <= i < next_id sys')%nat)
                  [context; alg; object; hash; handle])
  /\ alloc_answers sys' = skipn 3 (alloc_answers sys)
  /\ cng_answers sys' = skipn 4 (cng_answers sys).
Proof.
  intros Hids Hrun.
  destruct (CreateHashContext_cases heap sys Hids)
    as (st0 & c0 & s0 & E & [(Ec & _)|(Ec & R)]);
    subst c0; rewrite Hrun in E; inversion E; subst; clear E.
  destruct R as (Est & _ & Rb & Ra & Rh & Rn & Raa & Rca). subst st0.
  cbn [ctx_HeapHandle ctx_HashObjectSize ctx_HashSize ctx_HashObject
       ctx_Hash ctx_AlgHandle ctx_HashHandle].
  repeat (split; [reflexivity|]).
  split; [|split; [exact Raa | exact Rca]].
  do 4 eexists. repeat (split; [reflexivity|]).
  split; [exact Rb|]. split; [exact Ra|]. split; [exact Rh|].
  split.
  - repeat constructor; cbn [In]; lia.
  - rewrite Rn. repeat constructor; lia.
Qed.

Lemma CreateHashContext_success_witness :
  ids_below_next willing_system
  /\ fst (fst (CreateHashContext 7 willing_system)) = STATUS_SUCCESS
  /\ length (heap_blocks (snd (CreateHashContext 7 willing_system))) = 4%nat.
Proof.
  split; [repeat constructor|].
  destruct (CreateHashContext_success 7 willing_system
              (snd (CreateHashContext 7 willing_system))
              (fst (fst (CreateHashContext 7 willing_system)))
              2%nat
              (mkFields (Some 3%nat) (Some 6%nat) (Some 4%nat) 326
                        (Some 5%nat) 32 7%nat))
    as (A & _ & _ & _ & (o & h & a & hh & _ & _ & _ & _ & B & _) & _).
  - repeat constructor.
  - reflexivity.
  - split; [exact A|]. rewrite B. reflexivity.
Defined.

(** X17.  DestroyHashContext undoes a successful CreateHashContext: the
    heap blocks, the provider handles and the hash handles are those from
    before the creation. *)
Theorem CreateHashContext_then_DestroyHashContext (heap : nat)
    (sys sys' : SYSTEM) (st : NTSTATUS) (Context : nat * CNG_CTX_FIELDS) :
  ids_below_next sys ->
  CreateHashContext heap sys = (st, Some Context, sys') ->
  heap_blocks (DestroyHashContext Context sys') = heap_blocks sys
  /\ alg_handles (DestroyHashContext Context sys') = alg_handles sys
  /\ hash_handles (DestroyHashContext Context sys') = hash_handles sys.
Proof.
  intros Hids Hrun.
  destruct (CreateHashContext_cases heap sys Hids)
    as (st0 & c0 & s0 & E & [(Ec & _)|(Ec & R)]);
    subst c0; rewrite Hrun in E; inversion E; subst; clear E.
  destruct R as (_ & _ & Rb & Ra & Rh & _).
  destruct Hids as (Fb & Fa & Fh).
  unfold DestroyHashContext.
  cbn [ctx_HeapHandle ctx_HashObject ctx_Hash ctx_AlgHandle ctx_HashHandle
       BCryptCloseAlgorithmProvider BCryptDestroyHash HeapFree_if HeapFree
       heap_blocks alg_handles hash_handles].
  rewrite Rb, Ra, Rh. cbn [Nat.add].
  split; [|split]; free_blocks; reflexivity.
Qed.

Lemma CreateHashContext_then_DestroyHashContext_witness :
  ids_below_next willing_system
  /\ heap_blocks
       (DestroyHashContext
          (2%nat, mkFields (Some 3%nat) (Some 6%nat) (Some 4%nat) 326
                           (Some 5%nat) 32 7%nat)
          (snd (CreateHashContext 7 willing_system)))
     = [(7, 1)%nat].
Proof.
  split; [repeat constructor|].
  apply (CreateHashContext_then_DestroyHashContext 7 willing_system
           (snd (CreateHashContext 7 willing_system)) STATUS_SUCCESS).
  - repeat constructor.
  - reflexivity.
Defined.
